(** * rvm: the stack reconciler of [src/rvm/rvm.py]

    A shallow embedding of the Lambda function that reconciles the
    CloudFormation stacks declared in a manifest with the stacks present in
    each target account, and the properties of its specification.

    Layout: Python string and path helpers; the naming function; the
    exception/state monad the effectful code runs in; the interface of the
    outside world (file system, STS, CloudFormation, S3); the functions of
    [rvm.py] in source order; a simulated cloud used to run the code on
    concrete inputs; then the theorems. *)

From Stdlib Require Import ZArith Ascii String List.
From stdpp Require Import base tactics option list strings gmap sets.

Local Open Scope Z_scope.

(** ** Python string primitives used by [os.path] *)

Module PyStr.

(** [s.rfind(c)] for a one-character [c]: the highest index of [c] in [s],
    or [-1]. The scan keeps the position [i] it is at and the last hit. *)
Fixpoint rfind_from (c : ascii) (s : string) (i last : Z) : Z :=
  match s with
  | EmptyString => last
  | String a s' => rfind_from c s' (i + 1) (if decide (a = c) then i else last)
  end.

Definition rfind (c : ascii) (s : string) : Z := rfind_from c s 0 (-1).

(** [s[i:]] and [s[:i]] for [0 <= i]. *)
Fixpoint drop (n : nat) (s : string) : string :=
  match n, s with
  | O, _ => s
  | S n', String _ s' => drop n' s'
  | S _, EmptyString => EmptyString
  end.

Fixpoint take (n : nat) (s : string) : string :=
  match n, s with
  | S n', String a s' => String a (take n' s')
  | _, _ => EmptyString
  end.

Definition slice_from (i : Z) (s : string) : string := drop (Z.to_nat i) s.
Definition slice_to (i : Z) (s : string) : string := take (Z.to_nat i) s.
Definition slice (i j : Z) (s : string) : string := slice_to (j - i) (slice_from i s).

(** [c in s] for a one-character [c]. *)
Fixpoint mem (c : ascii) (s : string) : bool :=
  match s with
  | EmptyString => false
  | String a s' => if decide (a = c) then true else mem c s'
  end.

(** [s.startswith(p)] and [s.endswith(c)] for a one-character [c]. *)
Definition startswith (p s : string) : bool := String.prefix p s.

Fixpoint endswith_char (c : ascii) (s : string) : bool :=
  match s with
  | EmptyString => false
  | String a EmptyString => if decide (a = c) then true else false
  | String _ s' => endswith_char c s'
  end.

(** Some character of [s] differs from [c]. *)
Fixpoint has_other (c : ascii) (s : string) : bool :=
  match s with
  | EmptyString => false
  | String a s' => if decide (a = c) then has_other c s' else true
  end.

End PyStr.

(** ** [posixpath] *)

Module PosixPath.

Definition sep : ascii := "/"%char.
Definition extsep : ascii := "."%char.

(** [i = p.rfind(sep) + 1; return p[i:]] *)
Definition basename (p : string) : string :=
  let i := PyStr.rfind sep p + 1 in
  PyStr.slice_from i p.

(** [genericpath._splitext]: the extension starts at the last dot, unless
    that dot is not after the last separator or only dots precede it in the
    file name. *)
Definition splitext (p : string) : string * string :=
  let sepIndex := PyStr.rfind sep p in
  let dotIndex := PyStr.rfind extsep p in
  if decide (dotIndex > sepIndex) then
    if PyStr.has_other extsep (PyStr.slice (sepIndex + 1) dotIndex p)
    then (PyStr.slice_to dotIndex p, PyStr.slice_from dotIndex p)
    else (p, "")
  else (p, "").

(** [os.path.join(a, b)] with two components. *)
Definition join (a b : string) : string :=
  if PyStr.startswith "/" b then b
  else if decide (a = "") then a +:+ b
  else if PyStr.endswith_char sep a then a +:+ b
  else a +:+ "/" +:+ b.

End PosixPath.

(** ** Stack naming *)

Definition STACK_PREFIX : string := "rvm-provisioned".

(** [_generate_stack_name], lines 141-144. *)
Definition _generate_stack_name (template_file : string) : string :=
  let base_name := fst (PosixPath.splitext (PosixPath.basename template_file)) in
  let stack_name := STACK_PREFIX +:+ "-" +:+ base_name in
  stack_name.

(** The name [f"{stack_name}-{account_id}"] that the first pass of
    [deploy_all] records for a template and an account (lines 188, 193). *)
Definition expected_stack_name (template_file account_id : string) : string :=
  _generate_stack_name template_file +:+ "-" +:+ account_id.

(** ** Exceptions, log records, calls to the outside *)

(** The exceptions the program can meet; all are subclasses of Python's
    [Exception], and [FileNotFoundError] is the one the code tells apart. *)
Inductive exn : Type :=
  | FileNotFoundError (path : string)
  | OSError (msg : string)
  | JSONDecodeError (msg : string)
  | KeyError (key : string)
  | IndexError (msg : string)
  | ClientError (msg : string).

(** [str(e)] *)
Definition str_exn (e : exn) : string :=
  match e with
  | FileNotFoundError path => "[Errno 2] No such file or directory: '" +:+ path +:+ "'"
  | KeyError key => "'" +:+ key +:+ "'"
  | OSError msg | JSONDecodeError msg | IndexError msg | ClientError msg => msg
  end.

Inductive result (A : Type) : Type :=
  | Ret (a : A)
  | Raise (e : exn).
Arguments Ret {A} a.
Arguments Raise {A} e.

(** The manifest document, [manifest.json]: a key is absent ([None]) or holds a
    value of the type the document format gives it. *)
Record template_config : Type := TemplateConfig {
  cfg_template_file : option string;
  cfg_accounts : option (list string)
}.

Record manifest : Type := Manifest {
  manifest_templates : option (list template_config)
}.

(** One element of a [list_stacks] page. *)
Record stack_summary : Type := StackSummary {
  StackName : string;
  StackStatus : string
}.

(** A scoped session stands for the temporary credentials of the account whose
    role was assumed. *)
Record session : Type := Session { session_account : string }.

(** The S3 notification that triggers the function. *)
Record s3_record : Type := S3Record {
  s3_bucket_name : string;
  s3_object_key : string
}.

Record event : Type := Event { Records : option (list s3_record) }.

(** Calls that leave the process, in the order they are made. *)
Inductive call : Type :=
  | DownloadFile (bucket key path : string)
  | ExtractAll (zip_path dir : string)
  | AssumeRole (role_arn session_name : string)
  | ListStacks (account : string)
  | DeleteStack (account stack_name : string)
  | WaitStackDeleteComplete (account stack_name : string)
  | UpdateStack (account stack_name template_body : string)
  | CreateStack (account stack_name template_body : string).

Inductive level : Type := INFO | WARNING | ERROR.

(** One constructor per logging statement of [rvm.py], with the values its
    f-string interpolates. *)
Inductive log_msg : Type :=
  | LogDownloading (bucket key zip_path : string)
  | LogExtracting (temp_dir : string)
  | LogAssumedRole (role_arn : string)
  | LogListFailed (e : exn)
  | LogDeleteStarted (stack_name account_id : string)
  | LogDeleteDone (stack_name account_id : string)
  | LogDeleteFailed (stack_name account_id : string) (e : exn)
  | LogStackExists (stack_name account_id : string)
  | LogUpdateStarted (stack_name account_id : string)
  | LogCreating (stack_name account_id : string)
  | LogCreateStarted (stack_name account_id : string)
  | LogNoTemplatesSection
  | LogMissingTemplateFile
  | LogNoAccounts (template_file : string)
  | LogTemplateNotFound (template_path : string)
  | LogOrphanCheckFailed (account_id : string) (e : exn)
  | LogDeployFailed (template_file account_id : string) (e : exn)
  | LogDeploymentComplete (n_success n_failed n_deleted : nat)
  | LogSuccessful (success : list string)
  | LogFailed (failed : list string)
  | LogDeleted (deleted : list string)
  | LogReceivedEvent (ev : event)
  | LogProcessing (bucket key : string)
  | LogError (e : exn).

(** ** The outside world *)

(** What the program consumes from its collaborators. [W] is the state of the
    world; each operation answers, or raises, and moves the world on. Nothing
    is assumed of the answers: any call may raise at any time. CloudFormation
    is reached under the credentials of an account, named here by its id.
    Building a client object ([session.client], [boto3.client]) makes no call
    and is taken not to fail, and the answers of AWS have the fields the API
    documents. Sets of strings are iterated in an order Python does not
    specify: [set_iter] is any enumeration of the set. *)
Class Cloud (W : Type) : Type := {
  tempfile_mkdtemp : W → result string * W;
  s3_download_file : string → string → string → W → result unit * W;
  zipfile_extractall : string → string → W → result unit * W;
  (* [open(path).read()] *)
  file_read : string → W → result string * W;
  (* [json.loads(open(path).read())]: the parsed document, or the exception of
     either step *)
  json_file_load : string → W → result manifest * W;
  sts_assume_role : string → string → W → result unit * W;
  (* the pages the paginator yields, and the exception that ends the
     iteration early, if any *)
  cfn_list_stacks :
    string → list string → W → (list (list stack_summary) * option exn) * W;
  cfn_delete_stack : string → string → W → result unit * W;
  cfn_wait_stack_delete_complete : string → string → W → result unit * W;
  cfn_update_stack : string → string → string → list string → W → result unit * W;
  cfn_create_stack : string → string → string → list string → W → result unit * W;
  set_iter : gset string → list string;
  set_iter_perm : ∀ s, set_iter s ≡ₚ elements s
}.

(** ** The monad of the program: world, call trace, log; exceptions *)

Record state (W : Type) : Type := State {
  world : W;
  trace : list call;
  log : list (level * log_msg)
}.
Arguments State {W} _ _ _.
Arguments world {W} _.
Arguments trace {W} _.
Arguments log {W} _.

Definition M (W A : Type) : Type := state W → result A * state W.

Global Instance M_ret {W} : MRet (M W) := λ A a st, (Ret a, st).

Global Instance M_bind {W} : MBind (M W) := λ A B f m st,
  match m st with
  | (Ret a, st') => f a st'
  | (Raise e, st') => (Raise e, st')
  end.

Definition raise {W A} (e : exn) : M W A := λ st, (Raise e, st).

(** [try: m  except Exception as e: h e] *)
Definition try_except {W A} (m : M W A) (h : exn → M W A) : M W A := λ st,
  match m st with
  | (Ret a, st') => (Ret a, st')
  | (Raise e, st') => h e st'
  end.

Definition logger {W} (l : level) (m : log_msg) : M W unit := λ st,
  (Ret tt, State (world st) (trace st) (log st ++ [(l, m)])).

(** A call to the outside: recorded in the trace, answered by the world. *)
Definition perform {W A} (c : call) (op : W → result A * W) : M W A := λ st,
  let (r, w') := op (world st) in
  (r, State w' (trace st ++ [c]) (log st)).

(** A local operation of the host (files, temporary directories). *)
Definition local_op {W A} (op : W → result A * W) : M W A := λ st,
  let (r, w') := op (world st) in
  (r, State w' (trace st) (log st)).

(** [for x in xs: acc = f acc x] *)
Fixpoint foldM {W A B} (f : B → A → M W B) (acc : B) (xs : list A) : M W B :=
  match xs with
  | [] => mret acc
  | x :: xs' => acc' ← f acc x; foldM f acc' xs'
  end.

(** ** The program, [src/rvm/rvm.py] *)

(** [results = {"success": [], "failed": [], "deleted": []}] *)
Record results : Type := Results {
  success : list string;
  failed : list string;
  deleted : list string
}.

Definition empty_results : results := Results [] [] [].

(** The answer of [lambda_handler]; [body] is the object given to
    [json.dumps]. *)
Inductive body : Type :=
  | ErrorBody (error : string)
  | CompletedBody (message : string) (success failed deleted : list string).

Record response : Type := Response { statusCode : Z; response_body : body }.

(** What the first pass over the manifest builds (lines 157-193). *)
Record desired : Type := Desired {
  d_results : results;
  expected_stacks : gset string;
  all_accounts : gset string;
  account_stacks : gmap string (gset string)
}.

Section Program.
Context {W : Type} `{!Cloud W}.

#[local] Abbreviation M := (M W).

(** Lines 13-30. *)
Definition _download_and_extract_zip (bucket key : string) : M string :=
  temp_dir ← local_op tempfile_mkdtemp;
  let zip_path := PosixPath.join temp_dir "rvm-configuration.zip" in
  logger INFO (LogDownloading bucket key zip_path);;
  perform (DownloadFile bucket key zip_path) (s3_download_file bucket key zip_path);;
  logger INFO (LogExtracting temp_dir);;
  perform (ExtractAll zip_path temp_dir) (zipfile_extractall zip_path temp_dir);;
  mret temp_dir.

(** Lines 33-36. *)
Definition _read_manifest (manifest_file : string) : M manifest :=
  manifest ← local_op (json_file_load manifest_file);
  mret manifest.

(** Lines 39-54, with the default [role_name]. *)
Definition _assume_role (account_id : string) : M session :=
  let role_name := "RvmWorkflowRole" in
  let role_arn := "arn:aws:iam::" +:+ account_id +:+ ":role/" +:+ role_name in
  let session_name := "rvm-deployment-" +:+ account_id in
  perform (AssumeRole role_arn session_name) (sts_assume_role role_arn session_name);;
  let session := Session account_id in
  logger INFO (LogAssumedRole role_arn);;
  mret session.

(** Lines 57-60. *)
Definition _read_template_file (template_file : string) : M string :=
  local_op (file_read template_file).

(** The two nested loops of lines 70-75 over the pages that were yielded. *)
Definition record_stack (existing_stacks : gmap string string) (stack : stack_summary)
    : gmap string string :=
  if PyStr.startswith STACK_PREFIX (StackName stack)
  then <[StackName stack := StackStatus stack]> existing_stacks
  else existing_stacks.

Definition record_pages (pages : list (list stack_summary)) : gmap string string :=
  foldl (λ existing_stacks page, foldl record_stack existing_stacks page) ∅ pages.

(** Lines 63-79: the exception of the paginator is logged and swallowed, and
    what was recorded until then is returned. *)
Definition _get_existing_stacks (s : session) : M (gmap string string) :=
  '(pages, err) ← perform (ListStacks (session_account s))
       (λ w, let (r, w') :=
               cfn_list_stacks (session_account s) ["CREATE_COMPLETE"; "UPDATE_COMPLETE"] w
             in (Ret r, w'));
  let existing_stacks := record_pages pages in
  match err with
  | Some e => logger WARNING (LogListFailed e)
  | None => mret tt
  end;;
  mret existing_stacks.

(** Lines 82-102. *)
Definition _delete_stack (s : session) (stack_name account_id : string) : M bool :=
  try_except
    (perform (DeleteStack (session_account s) stack_name)
             (cfn_delete_stack (session_account s) stack_name);;
     logger INFO (LogDeleteStarted stack_name account_id);;
     perform (WaitStackDeleteComplete (session_account s) stack_name)
             (cfn_wait_stack_delete_complete (session_account s) stack_name);;
     logger INFO (LogDeleteDone stack_name account_id);;
     mret true)
    (λ e,
     logger ERROR (LogDeleteFailed stack_name account_id e);;
     mret false).

(** Lines 105-138. *)
Definition _deploy_stack (s : session) (template_content stack_name account_id : string)
    (existing_stacks : gmap string string) : M bool :=
  if decide (stack_name ∈ dom existing_stacks) then
    logger INFO (LogStackExists stack_name account_id);;
    perform (UpdateStack (session_account s) stack_name template_content)
            (cfn_update_stack (session_account s) stack_name template_content
               ["CAPABILITY_NAMED_IAM"]);;
    logger INFO (LogUpdateStarted stack_name account_id);;
    mret true
  else
    logger INFO (LogCreating stack_name account_id);;
    perform (CreateStack (session_account s) stack_name template_content)
            (cfn_create_stack (session_account s) stack_name template_content
               ["CAPABILITY_NAMED_IAM"]);;
    logger INFO (LogCreateStarted stack_name account_id);;
    mret true.

(** [not template_file]: the key is absent or holds the empty string. *)
Definition falsy_str (o : option string) : bool :=
  match o with
  | None => true
  | Some s => if decide (s = "") then true else false
  end.

(** [_read_template_file] under [except FileNotFoundError]: [None] when the
    handler is taken; any other exception goes on. *)
Definition read_template_or_missing (template_path : string) : M (option string) :=
  try_except
    (template_content ← _read_template_file template_path; mret (Some template_content))
    (λ e, match e with
          | FileNotFoundError _ => mret None
          | _ => raise e
          end).

(** Lines 187-193: the loop over the accounts of one entry. *)
Definition expect_account (stack_name : string) (d : desired) (account_id : string)
    : desired :=
  let name := stack_name +:+ "-" +:+ account_id in
  let account_stacks1 :=
    if decide (account_id ∈ dom (account_stacks d)) then account_stacks d
    else <[account_id := ∅]> (account_stacks d) in
  Desired (d_results d)
          ({[name]} ∪ expected_stacks d)
          (all_accounts d)
          (<[account_id := {[name]} ∪ default ∅ (account_stacks1 !! account_id)]>
             account_stacks1).

(** Lines 162-193: the body of the first loop, for one manifest entry. *)
Definition collect_entry (extracted_dir : string) (d : desired) (cfg : template_config)
    : M desired :=
  let template_file := cfg_template_file cfg in
  let accounts := default [] (cfg_accounts cfg) in
  if falsy_str template_file then
    logger WARNING LogMissingTemplateFile;;
    mret d
  else
    let template_file := default "" template_file in
    match accounts with
    | [] =>
        logger WARNING (LogNoAccounts template_file);;
        mret d
    | _ =>
        let template_path := PosixPath.join extracted_dir template_file in
        content ← read_template_or_missing template_path;
        match content with
        | None =>
            logger WARNING (LogTemplateNotFound template_path);;
            let r := d_results d in
            mret (Desired (Results (success r) (failed r ++ accounts) (deleted r))
                          (expected_stacks d) (all_accounts d) (account_stacks d))
        | Some _ =>
            let stack_name := _generate_stack_name template_file in
            let d1 := Desired (d_results d) (expected_stacks d)
                              (all_accounts d ∪ list_to_set accounts) (account_stacks d) in
            mret (foldl (expect_account stack_name) d1 accounts)
        end
    end.

(** Lines 208-210: the loop over the orphaned stacks of one account. *)
Definition delete_orphan (s : session) (account_id : string) (r : results)
    (stack_name : string) : M results :=
  ok ← _delete_stack s stack_name account_id;
  if ok : bool
  then mret (Results (success r) (failed r) (deleted r ++ [stack_name +:+ ":" +:+ account_id]))
  else mret r.

(** Lines 197-215: the body of the second loop, for one account. In the
    [try] block only [_assume_role] can raise, and it comes before the first
    assignment, so the handler finds both objects as they were. *)
Definition reconcile_account (account_stacks : gmap string (gset string))
    (acc : results * gmap string (gmap string string)) (account_id : string)
    : M (results * gmap string (gmap string string)) :=
  let '(r, account_existing_stacks) := acc in
  try_except
    (s ← _assume_role account_id;
     existing_stacks ← _get_existing_stacks s;
     let account_existing_stacks1 := <[account_id := existing_stacks]> account_existing_stacks in
     let expected_for_account := default ∅ (account_stacks !! account_id) in
     let orphaned_stacks := dom existing_stacks ∖ expected_for_account in
     r1 ← foldM (delete_orphan s account_id) r (set_iter orphaned_stacks);
     mret (r1, account_existing_stacks1))
    (λ e,
     logger ERROR (LogOrphanCheckFailed account_id e);;
     mret (r, account_existing_stacks)).

(** Lines 239-247: the [try] block of the inner deploy loop. *)
Definition deploy_attempt (template_file template_content stack_name : string)
    (account_existing_stacks : gmap string (gmap string string))
    (r : results) (account_id : string) : M results :=
  let entry := template_file +:+ ":" +:+ account_id in
  s ← _assume_role account_id;
  let existing_stacks := default ∅ (account_existing_stacks !! account_id) in
  ok ← _deploy_stack s template_content stack_name account_id existing_stacks;
  if ok : bool
  then mret (Results (success r ++ [entry]) (failed r) (deleted r))
  else mret (Results (success r) (failed r ++ [entry]) (deleted r)).

(** Lines 237-253: the body of the inner deploy loop, for one account. *)
Definition deploy_account (template_file template_content stack_name : string)
    (account_existing_stacks : gmap string (gmap string string))
    (r : results) (account_id : string) : M results :=
  let entry := template_file +:+ ":" +:+ account_id in
  try_except
    (deploy_attempt template_file template_content stack_name account_existing_stacks
       r account_id)
    (λ e,
     logger ERROR (LogDeployFailed template_file account_id e);;
     mret (Results (success r) (failed r ++ [entry]) (deleted r))).

(** Lines 218-253: the body of the outer deploy loop, for one entry. *)
Definition deploy_entry (extracted_dir : string)
    (account_existing_stacks : gmap string (gmap string string))
    (r : results) (cfg : template_config) : M results :=
  let template_file := cfg_template_file cfg in
  let accounts := default [] (cfg_accounts cfg) in
  if falsy_str template_file then mret r
  else
    let template_file := default "" template_file in
    match accounts with
    | [] => mret r
    | _ =>
        let template_path := PosixPath.join extracted_dir template_file in
        content ← read_template_or_missing template_path;
        match content with
        | None => mret r
        | Some template_content =>
            let stack_name := _generate_stack_name template_file in
            foldM (deploy_account template_file template_content stack_name
                     account_existing_stacks) r accounts
        end
    end.

(** Lines 255-264. *)
Definition log_summary (r : results) : M unit :=
  logger INFO (LogDeploymentComplete (length (success r)) (length (failed r))
                 (length (deleted r)));;
  (if success r is [] then mret tt else logger INFO (LogSuccessful (success r)));;
  (if failed r is [] then mret tt else logger WARNING (LogFailed (failed r)));;
  (if deleted r is [] then mret tt else logger INFO (LogDeleted (deleted r))).

(** The three passes of [deploy_all] after the manifest is read. *)
Definition collect_desired (extracted_dir : string) (templates : list template_config)
    : M desired :=
  foldM (collect_entry extracted_dir) (Desired empty_results ∅ ∅ ∅) templates.

Definition delete_phase (d : desired) : M (results * gmap string (gmap string string)) :=
  foldM (reconcile_account (account_stacks d)) (d_results d, ∅) (set_iter (all_accounts d)).

Definition deploy_phase (extracted_dir : string) (templates : list template_config)
    (account_existing_stacks : gmap string (gmap string string)) (r : results)
    : M results :=
  foldM (deploy_entry extracted_dir account_existing_stacks) r templates.

(** Lines 147-266. *)
Definition deploy_all (extracted_dir : string) : M results :=
  let manifest_path := PosixPath.join extracted_dir "manifest.json" in
  let results0 := empty_results in
  manifest ← _read_manifest manifest_path;
  match manifest_templates manifest with
  | None =>
      logger WARNING LogNoTemplatesSection;;
      mret results0
  | Some templates =>
      d ← collect_desired extracted_dir templates;
      '(r, account_existing_stacks) ← delete_phase d;
      r' ← deploy_phase extracted_dir templates account_existing_stacks r;
      log_summary r';;
      mret r'
  end.

(** [event["Records"][0]]: [KeyError] without the key, [IndexError] on an
    empty list. *)
Definition first_record (ev : event) : M s3_record :=
  match Records ev with
  | None => raise (KeyError "Records")
  | Some [] => raise (IndexError "list index out of range")
  | Some (r :: _) => mret r
  end.

(** Lines 274-297: the [try] block of the handler. *)
Definition process_event (ev : event) : M response :=
  s3_event ← first_record ev;
  let bucket := s3_bucket_name s3_event in
  let key := s3_object_key s3_event in
  logger INFO (LogProcessing bucket key);;
  extracted_dir ← _download_and_extract_zip bucket key;
  r ← deploy_all extracted_dir;
  mret (Response 200
          (CompletedBody "Deployment completed" (success r) (failed r) (deleted r))).

(** Lines 299-301: the handler of [except Exception as e]. *)
Definition report_error (e : exn) : M response :=
  logger ERROR (LogError e);;
  mret (Response 500 (ErrorBody (str_exn e))).

(** Lines 269-301. *)
Definition lambda_handler (ev : event) : M response :=
  logger INFO (LogReceivedEvent ev);;
  try_except (process_event ev) report_error.

End Program.

(** ** A simulated cloud

    A small control plane that applies each request at once, used to run the
    program on concrete inputs. Stacks live per account; creating a stack that
    exists and updating one that does not are refused, as CloudFormation
    does. *)

Record sim : Type := Sim {
  sim_json : gmap string manifest;            (* parseable JSON files *)
  sim_broken_json : gset string;              (* files that are not JSON *)
  sim_files : gmap string string;             (* readable text files *)
  sim_objects : gset (string * string);       (* S3 objects, as (bucket, key) *)
  sim_stacks : gmap string (gmap string string);  (* account, then name to status *)
  sim_denied : gset string;                   (* accounts whose role is refused *)
  sim_list_broken : gset string               (* accounts where list_stacks fails *)
}.

Definition sim_set_stacks (w : sim) (stacks : gmap string (gmap string string)) : sim :=
  Sim (sim_json w) (sim_broken_json w) (sim_files w) (sim_objects w) stacks
      (sim_denied w) (sim_list_broken w).

Definition sim_account (w : sim) (account : string) : gmap string string :=
  default ∅ (sim_stacks w !! account).

Definition sim_file_read (path : string) (w : sim) : result string * sim :=
  match sim_files w !! path with
  | Some content => (Ret content, w)
  | None => (Raise (FileNotFoundError path), w)
  end.

Definition sim_json_file_load (path : string) (w : sim) : result manifest * sim :=
  if decide (path ∈ sim_broken_json w)
  then (Raise (JSONDecodeError "Expecting value: line 1 column 1 (char 0)"), w)
  else match sim_json w !! path with
       | Some m => (Ret m, w)
       | None => (Raise (FileNotFoundError path), w)
       end.

Definition sim_download (bucket key path : string) (w : sim) : result unit * sim :=
  if decide ((bucket, key) ∈ sim_objects w) then (Ret tt, w)
  else (Raise (ClientError "An error occurred (404) when calling the HeadObject operation: Not Found"), w).

Definition sim_assume_role (account : string) (w : sim) : result unit * sim :=
  if decide (account ∈ sim_denied w)
  then (Raise (ClientError "An error occurred (AccessDenied) when calling the AssumeRole operation"), w)
  else (Ret tt, w).

Definition sim_list_stacks (account : string) (filter_ : list string) (w : sim)
    : (list (list stack_summary) * option exn) * sim :=
  if decide (account ∈ sim_list_broken w)
  then (([], Some (ClientError "An error occurred (Throttling) when calling the ListStacks operation")), w)
  else
    let page :=
      omap (λ kv : string * string,
              if decide (kv.2 ∈ filter_) then Some (StackSummary kv.1 kv.2) else None)
           (map_to_list (sim_account w account)) in
    (([page], None), w).

Definition sim_delete_stack (account name : string) (w : sim) : result unit * sim :=
  (Ret tt, sim_set_stacks w (<[account := delete name (sim_account w account)]> (sim_stacks w))).

Definition sim_wait_delete (account name : string) (w : sim) : result unit * sim :=
  (Ret tt, w).

Definition sim_update_stack (account name body : string) (caps : list string) (w : sim)
    : result unit * sim :=
  match sim_account w account !! name with
  | Some _ =>
      (Ret tt, sim_set_stacks w
                 (<[account := <[name := "UPDATE_COMPLETE"]> (sim_account w account)]>
                    (sim_stacks w)))
  | None => (Raise (ClientError "An error occurred (ValidationError) when calling the UpdateStack operation: Stack does not exist"), w)
  end.

Definition sim_create_stack (account name body : string) (caps : list string) (w : sim)
    : result unit * sim :=
  match sim_account w account !! name with
  | Some _ => (Raise (ClientError "An error occurred (AlreadyExistsException) when calling the CreateStack operation"), w)
  | None =>
      (Ret tt, sim_set_stacks w
                 (<[account := <[name := "CREATE_COMPLETE"]> (sim_account w account)]>
                    (sim_stacks w)))
  end.

(** The account a role ARN [arn:aws:iam::<account>:role/<name>] names. *)
Fixpoint until_colon (s : string) : string :=
  match s with
  | EmptyString => EmptyString
  | String a s' => if decide (a = ":"%char) then EmptyString else String a (until_colon s')
  end.

Definition arn_account (role_arn : string) : string :=
  until_colon (PyStr.drop 13 role_arn).

#[global] Instance sim_cloud : Cloud sim := {|
  tempfile_mkdtemp w := (Ret "/tmp/tmpq1w2e3", w);
  s3_download_file := sim_download;
  zipfile_extractall _ _ w := (Ret tt, w);
  file_read := sim_file_read;
  json_file_load := sim_json_file_load;
  sts_assume_role role_arn _ := sim_assume_role (arn_account role_arn);
  cfn_list_stacks := sim_list_stacks;
  cfn_delete_stack := sim_delete_stack;
  cfn_wait_stack_delete_complete := sim_wait_delete;
  cfn_update_stack := sim_update_stack;
  cfn_create_stack := sim_create_stack;
  set_iter := elements;
  set_iter_perm s := reflexivity _
|}.

Definition run {A} (m : M sim A) (w : sim) : result A * state sim := m (State w [] []).


(** ** Scenarios run on the simulated cloud *)

(** The bundle of the first scenario of the specification, with one account:
    [net.yaml] for account [111], unpacked under [/b]. *)
Definition net_manifest : manifest :=
  Manifest (Some [TemplateConfig (Some "net.yaml") (Some ["111"])]).

Definition net_world : sim :=
  Sim {["/b/manifest.json" := net_manifest]} ∅ {["/b/net.yaml" := "Resources: {}"]}
      ∅ ∅ ∅ ∅.

(** The same bundle without the template file. *)
Definition missing_template_world : sim :=
  Sim {["/b/manifest.json" := net_manifest]} ∅ ∅ ∅ ∅ ∅ ∅.


(** The second scenario of the specification: account [111] holds the managed
    stack [rvm-provisioned-old-111], which no entry of the manifest declares. *)
Definition orphan_world : sim :=
  Sim {["/b/manifest.json" := net_manifest]} ∅ {["/b/net.yaml" := "Resources: {}"]}
      ∅ {["111" := {["rvm-provisioned-old-111" := "CREATE_COMPLETE"]}]} ∅ ∅.

(** What the first pass builds in the second scenario. *)
Definition orphan_desired : desired :=
  Desired empty_results {["rvm-provisioned-net-111"]} {["111"]}
          {["111" := {["rvm-provisioned-net-111"]}]}.

(** A bundle whose manifest is not JSON, and one whose manifest has no
    [templates] key. *)
Definition broken_manifest_world : sim :=
  Sim ∅ {["/b/manifest.json"]} ∅ ∅ ∅ ∅ ∅.

Definition no_templates_world : sim :=
  Sim {["/b/manifest.json" := Manifest None]} ∅ ∅ ∅ ∅ ∅ ∅.

(** The first scenario behind S3: the bundle [rvm.zip] of bucket [cfg] is
    unpacked where [tempfile_mkdtemp] says. *)
Definition uploaded_world : sim :=
  Sim {["/tmp/tmpq1w2e3/manifest.json" := net_manifest]} ∅
      {["/tmp/tmpq1w2e3/net.yaml" := "Resources: {}"]}
      {[("cfg", "rvm.zip")]} ∅ ∅ ∅.

Definition uploaded_broken_world : sim :=
  Sim ∅ {["/tmp/tmpq1w2e3/manifest.json"]} ∅ {[("cfg", "rvm.zip")]} ∅ ∅ ∅.

(** Two runs in succession: the second starts in the world the first left. *)
Definition first_run : result results * state sim := run (deploy_all "/b") net_world.
Definition second_run : result results * state sim :=
  run (deploy_all "/b") (world first_run.2).

(** ** The plan a run carries out in one account *)

(** The base identity of a template: [os.path.splitext(os.path.basename(f))[0]]
    (line 142). *)
Definition template_base_name (template_file : string) : string :=
  fst (PosixPath.splitext (PosixPath.basename template_file)).

Record plan : Type := Plan {
  toCreate : gset string;
  toUpdate : gset string;
  toDelete : gset string
}.

(** The stack a call asks CloudFormation to create, to update or to delete in
    the account [account]. *)
Definition created_in (account : string) (c : call) : option string :=
  match c with
  | CreateStack a name _ => if decide (a = account) then Some name else None
  | _ => None
  end.

Definition updated_in (account : string) (c : call) : option string :=
  match c with
  | UpdateStack a name _ => if decide (a = account) then Some name else None
  | _ => None
  end.

Definition deleted_in (account : string) (c : call) : option string :=
  match c with
  | DeleteStack a name => if decide (a = account) then Some name else None
  | _ => None
  end.

(** The plan a run carried out in [account], read off the calls it made: the
    names it asked to create (lines 131-135), to update (lines 119-123) and
    to delete (line 87). *)
Definition executed_plan (account : string) (t : list call) : plan :=
  Plan (list_to_set (omap (created_in account) t))
       (list_to_set (omap (updated_in account) t))
       (list_to_set (omap (deleted_in account) t)).

(** The second run of the first scenario, pass by pass: what the first pass
    expects, and the clean-up that follows it. *)
Definition second_run_desired : result desired * state sim :=
  run (collect_desired "/b" [TemplateConfig (Some "net.yaml") (Some ["111"])])
      (world first_run.2).

Definition second_run_cleanup
    : result (results * gmap string (gmap string string)) * state sim :=
  run (d ← collect_desired "/b" [TemplateConfig (Some "net.yaml") (Some ["111"])];
       delete_phase d)
      (world first_run.2).

(** ** Kinds of calls *)

Definition is_delete_call (c : call) : bool :=
  match c with
  | DeleteStack _ _ | WaitStackDeleteComplete _ _ => true
  | _ => false
  end.

Definition is_deploy_call (c : call) : bool :=
  match c with
  | UpdateStack _ _ _ | CreateStack _ _ _ => true
  | _ => false
  end.


(** The account a CloudFormation call is made in. *)
Definition call_account (c : call) : option string :=
  match c with
  | ListStacks a | DeleteStack a _ | WaitStackDeleteComplete a _
  | UpdateStack a _ _ | CreateStack a _ _ => Some a
  | _ => None
  end.

(** The calls of the orphan clean-up, and the calls of the deploy loop. *)
Definition delete_phase_call (c : call) : Prop :=
  match c with
  | AssumeRole _ _ | ListStacks _ | DeleteStack _ _ | WaitStackDeleteComplete _ _ => True
  | _ => False
  end.

Definition deploy_phase_call (c : call) : Prop :=
  match c with
  | AssumeRole _ _ | UpdateStack _ _ _ | CreateStack _ _ _ => True
  | _ => False
  end.


(** Every create or update request is made under the stack name [name]. *)
Definition submits_as (name : string) (c : call) : Prop :=
  match c with
  | UpdateStack _ n _ | CreateStack _ n _ => n = name
  | _ => True
  end.

(** No delete request or wait comes after a create or update request. *)
Fixpoint deletes_first (t : list call) : bool :=
  match t with
  | [] => true
  | c :: t' =>
      if is_deploy_call c then forallb (λ c', negb (is_delete_call c')) t'
      else deletes_first t'
  end.

(** The calls made for the planned deletions [names] of one account, from the
    world [w] on: each name is submitted in turn and then awaited, whether
    the wait ends well or not; only a submission that raised is not
    awaited. *)
Inductive settled {W : Type} `{!Cloud W} (account : string)
    : list string → W → list call → W → Prop :=
  | settled_nil w : settled account [] w [] w
  | settled_awaited name names w w1 outcome w2 t w3 :
      cfn_delete_stack account name w = (Ret tt, w1) →
      cfn_wait_stack_delete_complete account name w1 = (outcome, w2) →
      settled account names w2 t w3 →
      settled account (name :: names) w
        (DeleteStack account name :: WaitStackDeleteComplete account name :: t) w3
  | settled_refused name names w e w1 t w3 :
      cfn_delete_stack account name w = (Raise e, w1) →
      settled account names w1 t w3 →
      settled account (name :: names) w (DeleteStack account name :: t) w3.

(** The calls of the orphan clean-up over the accounts [accounts], from the
    world [w] on (lines 197-215). The role of each account is assumed in
    turn. When it is refused the account is left. Otherwise the stacks of the
    account are listed, and every stack recorded from the pages that the
    first pass does not expect in this account is deleted and settled before
    the next account is looked at. *)
Inductive cleaned {W : Type} `{!Cloud W} (account_stacks : gmap string (gset string))
    : list string → W → list call → W → Prop :=
  | cleaned_nil w : cleaned account_stacks [] w [] w
  | cleaned_refused account accounts w e w1 t w2 :
      sts_assume_role ("arn:aws:iam::" +:+ account +:+ ":role/" +:+ "RvmWorkflowRole")
        ("rvm-deployment-" +:+ account) w = (Raise e, w1) →
      cleaned account_stacks accounts w1 t w2 →
      cleaned account_stacks (account :: accounts) w
        (AssumeRole ("arn:aws:iam::" +:+ account +:+ ":role/" +:+ "RvmWorkflowRole")
           ("rvm-deployment-" +:+ account) :: t) w2
  | cleaned_listed account accounts w w1 pages err w2 t1 w3 t w4 :
      sts_assume_role ("arn:aws:iam::" +:+ account +:+ ":role/" +:+ "RvmWorkflowRole")
        ("rvm-deployment-" +:+ account) w = (Ret tt, w1) →
      cfn_list_stacks account ["CREATE_COMPLETE"; "UPDATE_COMPLETE"] w1
        = ((pages, err), w2) →
      settled account
        (set_iter (dom (record_pages pages) ∖ default ∅ (account_stacks !! account)))
        w2 t1 w3 →
      cleaned account_stacks accounts w3 t w4 →
      cleaned account_stacks (account :: accounts) w
        (AssumeRole ("arn:aws:iam::" +:+ account +:+ ":role/" +:+ "RvmWorkflowRole")
           ("rvm-deployment-" +:+ account) :: ListStacks account :: t1 ++ t) w4.

(** ** Reasoning about the monad

    [emits P m]: from every world, [m] answers and moves the world in a way
    that does not depend on the trace and the log it starts with, it only
    appends to both, and every call it makes satisfies [P]. *)
Definition emits {W A} (P : call → Prop) (m : M W A) : Prop :=
  ∀ w, ∃ r w' t' l',
    Forall P t' ∧ ∀ t l, m (State w t l) = (r, State w' (t ++ t') (l ++ l')).

(** [emits_then P Q m]: the calls of [m] are calls satisfying [P] followed by
    calls satisfying [Q]. *)
Definition emits_then {W A} (P Q : call → Prop) (m : M W A) : Prop :=
  ∀ st, ∃ t1 t2, Forall P t1 ∧ Forall Q t2 ∧ trace (m st).2 = trace st ++ t1 ++ t2.

Ltac unfold_monad :=
  unfold try_except, mbind, M_bind, mret, M_ret, perform, local_op, logger, raise in *.

(** ** Further notions, for the properties of single functions *)

(** [m] can answer [a]. *)
Definition returns {W A} (m : M W A) (a : A) : Prop :=
  ∃ st st', m st = (Ret a, st').

(** A name the system takes for one of its stacks (line 74). *)
Definition managed_name (name : string) : bool := PyStr.startswith STACK_PREFIX name.

(** A stack operation is on a managed name. *)
Definition touches_managed_only (c : call) : Prop :=
  match c with
  | DeleteStack _ name | WaitStackDeleteComplete _ name
  | UpdateStack _ name _ | CreateStack _ name _ => managed_name name = true
  | _ => True
  end.

(** The summaries of a listing that carry the name [name], in page order. *)
Definition summaries_of (name : string) (pages : list (list stack_summary))
    : list stack_summary :=
  filter (λ stack, StackName stack = name) (concat pages).

(** The entries [template_file:account] of the accounts tried with the given
    outcome, in the order they were tried. *)
Definition reported (template_file : string) (outcome : bool)
    (tried : list (string * bool)) : list string :=
  (λ p, template_file +:+ ":" +:+ p.1) <$> filter (λ p, p.2 = outcome) tried.

(** The request for a deletion returned, and so did the wait after it. *)
Definition deletion_completes {W} `{!Cloud W} (account name : string) (w : W) : bool :=
  match cfn_delete_stack account name w with
  | (Ret _, w1) =>
      match cfn_wait_stack_delete_complete account name w1 with
      | (Ret _, _) => true
      | (Raise _, _) => false
      end
  | (Raise _, _) => false
  end.

(** The accounts a manifest names, in any of its entries. *)
Definition manifest_accounts (templates : list template_config) : gset string :=
  ⋃ ((λ cfg, list_to_set (default [] (cfg_accounts cfg))) <$> templates).

(** A call is made for the account [account]: to CloudFormation in that
    account, or to STS for the role [RvmWorkflowRole] of that account, under
    the session name of that account. *)
Definition in_account (account : string) (c : call) : Prop :=
  match c with
  | AssumeRole role_arn session_name =>
      role_arn = "arn:aws:iam::" +:+ account +:+ ":role/" +:+ "RvmWorkflowRole" ∧
      session_name = "rvm-deployment-" +:+ account
  | _ => match call_account c with
         | Some a => a = account
         | None => True
         end
  end.

(** A call is made for one of the accounts [accounts]. *)
Definition within_accounts (accounts : gset string) (c : call) : Prop :=
  match c with
  | DownloadFile _ _ _ | ExtractAll _ _ => True
  | _ => ∃ account, account ∈ accounts ∧ in_account account c
  end.

(** The first pass expects the stack [name] in the account [account]. *)
Definition expects (d : desired) (account name : string) : Prop :=
  ∃ names, account_stacks d !! account = Some names ∧ name ∈ names.

(** What the first pass keeps true of what it builds, [seen] being the
    entries it has gone through. *)
Definition first_pass_inv (seen : list template_config) (d : desired) : Prop :=
  dom (account_stacks d) = all_accounts d ∧
  (∀ name, name ∈ expected_stacks d ↔ ∃ a, expects d a name) ∧
  (∀ a name, expects d a name →
     ∃ cfg f, cfg ∈ seen ∧ cfg_template_file cfg = Some f ∧
              a ∈ default [] (cfg_accounts cfg) ∧ name = expected_stack_name f a) ∧
  all_accounts d ⊆ manifest_accounts seen ∧
  success (d_results d) = [] ∧ deleted (d_results d) = [].

(** An entry both passes skip: no template file, or no account (lines 166-172
    and 222-226), and the warning the first pass logs for it. *)
Definition skipped_entry (cfg : template_config) : bool :=
  falsy_str (cfg_template_file cfg)
  || (if default [] (cfg_accounts cfg) is [] then true else false).

Definition skip_warning (cfg : template_config) : level * log_msg :=
  if falsy_str (cfg_template_file cfg) then (WARNING, LogMissingTemplateFile)
  else (WARNING, LogNoAccounts (default "" (cfg_template_file cfg))).

(** A host on which the bundle of the first scenario is unpacked but no
    template can be opened. *)
#[global] Instance locked_host : Cloud unit := {|
  tempfile_mkdtemp w := (Ret "/tmp/tmpq1w2e3", w);
  s3_download_file _ _ _ w := (Ret tt, w);
  zipfile_extractall _ _ w := (Ret tt, w);
  file_read path w := (Raise (OSError ("[Errno 13] Permission denied: '" +:+ path +:+ "'")), w);
  json_file_load _ w := (Ret net_manifest, w);
  sts_assume_role _ _ w := (Ret tt, w);
  cfn_list_stacks _ _ w := (([], None), w);
  cfn_delete_stack _ _ w := (Ret tt, w);
  cfn_wait_stack_delete_complete _ _ w := (Ret tt, w);
  cfn_update_stack _ _ _ _ w := (Ret tt, w);
  cfn_create_stack _ _ _ _ w := (Ret tt, w);
  set_iter := elements;
  set_iter_perm s := reflexivity _
|}.

(** An exception other than [FileNotFoundError]. *)
Definition other_than_not_found (e : exn) : bool :=
  match e with
  | FileNotFoundError _ => false
  | _ => true
  end.

(** The first scenario in a cloud that refuses the role of account [111],
    and a bundle whose entries lack a template file or accounts. *)
Definition denied_world : sim :=
  Sim {["/b/manifest.json" := net_manifest]} ∅ {["/b/net.yaml" := "Resources: {}"]}
      ∅ ∅ {["111"]} ∅.

Definition skipped_manifest : list template_config :=
  [TemplateConfig None (Some ["111"]);
   TemplateConfig (Some "net.yaml") (Some []);
   TemplateConfig (Some "") None].

Definition skipped_world : sim :=
  Sim {["/b/manifest.json" := Manifest (Some skipped_manifest)]} ∅
      {["/b/net.yaml" := "Resources: {}"]} ∅ ∅ ∅ ∅.

(** [m] answers from every state. *)
Definition never_raises {W A} (m : M W A) : Prop :=
  ∀ st, ∃ a st', m st = (Ret a, st').

(** On this host opening a template fails in one way only: the file is not
    there. *)
Definition reads_fail_as_not_found (W : Type) `{!Cloud W} : Prop :=
  ∀ path (w : W),
    match (file_read path w).1 with
    | Ret _ => True
    | Raise e => other_than_not_found e = false
    end.

(** The role and the session name of an [AssumeRole] call. *)
Definition assumed_role (c : call) : option (string * string) :=
  match c with
  | AssumeRole role_arn session_name => Some (role_arn, session_name)
  | _ => None
  end.

(** The role the system assumes in an account, and the session name it
    gives (lines 40-44). *)
Definition workflow_role (account_id : string) : string * string :=
  ("arn:aws:iam::" +:+ account_id +:+ ":role/" +:+ "RvmWorkflowRole",
   "rvm-deployment-" +:+ account_id).

(** The request [_deploy_stack] makes for [stack_name] in [account] under the
    snapshot [existing_stacks] of that account (line 115), and what the cloud
    answers to it. *)
Definition deploy_request (account stack_name template_content : string)
    (existing_stacks : gmap string string) : call :=
  if decide (stack_name ∈ dom existing_stacks)
  then UpdateStack account stack_name template_content
  else CreateStack account stack_name template_content.

Definition request_answer {W : Type} `{!Cloud W} (account stack_name template_content : string)
    (existing_stacks : gmap string string) (w : W) : result unit * W :=
  if decide (stack_name ∈ dom existing_stacks)
  then cfn_update_stack account stack_name template_content ["CAPABILITY_NAMED_IAM"] w
  else cfn_create_stack account stack_name template_content ["CAPABILITY_NAMED_IAM"] w.

Definition accepted {A : Type} (answer : result A) : bool :=
  if answer is Ret _ then true else false.

(** The calls of the inner deploy loop over the accounts [accounts], from the
    world [w] on, and the outcome of each account (lines 237-253). The role
    of each account is assumed in turn. When it is refused the account has
    failed. Otherwise the one request is made, and the account has succeeded
    exactly when the cloud accepted the request. *)
Inductive deployed {W : Type} `{!Cloud W} (stack_name template_content : string)
    (account_existing_stacks : gmap string (gmap string string))
    : list string → W → list call → list (string * bool) → W → Prop :=
  | deployed_nil w :
      deployed stack_name template_content account_existing_stacks [] w [] [] w
  | deployed_refused account accounts w e w1 t tried w2 :
      sts_assume_role (workflow_role account).1 (workflow_role account).2 w
        = (Raise e, w1) →
      deployed stack_name template_content account_existing_stacks accounts w1 t tried w2 →
      deployed stack_name template_content account_existing_stacks (account :: accounts) w
        (AssumeRole (workflow_role account).1 (workflow_role account).2 :: t)
        ((account, false) :: tried) w2
  | deployed_requested account accounts w w1 answer w2 t tried w3 :
      sts_assume_role (workflow_role account).1 (workflow_role account).2 w
        = (Ret tt, w1) →
      request_answer account stack_name template_content
        (default ∅ (account_existing_stacks !! account)) w1 = (answer, w2) →
      deployed stack_name template_content account_existing_stacks accounts w2 t tried w3 →
      deployed stack_name template_content account_existing_stacks (account :: accounts) w
        (AssumeRole (workflow_role account).1 (workflow_role account).2
           :: deploy_request account stack_name template_content
                (default ∅ (account_existing_stacks !! account)) :: t)
        ((account, accepted answer) :: tried) w3.

(** * Properties *)

Example basename_nested : PosixPath.basename "stacks/net.yaml" = "net.yaml".
Proof. reflexivity. Qed.

Example splitext_dotfile : PosixPath.splitext ".bashrc" = (".bashrc", "").
Proof. reflexivity. Qed.

Example splitext_two_dots : PosixPath.splitext "a.tar.gz" = ("a.tar", ".gz").
Proof. reflexivity. Qed.

Example stack_name_net : _generate_stack_name "stacks/net.yaml" = "rvm-provisioned-net".
Proof. reflexivity. Qed.

Example join_plain : PosixPath.join "/tmp/x" "net.yaml" = "/tmp/x/net.yaml".
Proof. reflexivity. Qed.

(** ** The rules of [emits] *)

Section Emits.
Context {W : Type}.

Lemma emits_ret {A} P (a : A) : emits P (mret a : M W A).
Proof.
  intros w. exists (Ret a), w, [], []. split; [constructor|].
  intros t l. unfold mret, M_ret. by rewrite !app_nil_r.
Qed.

Lemma emits_raise {A} P e : emits P (raise e : M W A).
Proof.
  intros w. exists (Raise e), w, [], []. split; [constructor|].
  intros t l. unfold raise. by rewrite !app_nil_r.
Qed.

Lemma emits_logger P lv msg : emits P (logger lv msg : M W unit).
Proof.
  intros w. exists (Ret tt), w, [], [(lv, msg)]. split; [constructor|].
  intros t l. unfold logger; simpl. by rewrite app_nil_r.
Qed.

Lemma emits_perform {A} (P : call → Prop) c (op : W → result A * W) :
  P c → emits P (perform c op).
Proof.
  intros Hc w. destruct (op w) as [r w'] eqn:Hop.
  exists r, w', [c], []. split; [by repeat constructor|].
  intros t l. unfold perform; simpl. by rewrite Hop, app_nil_r.
Qed.

Lemma emits_local_op {A} P (op : W → result A * W) : emits P (local_op op).
Proof.
  intros w. destruct (op w) as [r w'] eqn:Hop.
  exists r, w', [], []. split; [constructor|].
  intros t l. unfold local_op; simpl. by rewrite Hop, !app_nil_r.
Qed.

Lemma emits_bind {A B} P (m : M W A) (f : A → M W B) :
  emits P m → (∀ a, emits P (f a)) → emits P (m ≫= f).
Proof.
  intros Hm Hf w. destruct (Hm w) as (r & w1 & t1 & l1 & HP1 & E1).
  destruct r as [a|e].
  - destruct (Hf a w1) as (r2 & w2 & t2 & l2 & HP2 & E2).
    exists r2, w2, (t1 ++ t2), (l1 ++ l2). split; [by apply Forall_app|].
    intros t l. unfold mbind, M_bind. by rewrite E1, E2, !app_assoc.
  - exists (Raise e), w1, t1, l1. split; [done|].
    intros t l. unfold mbind, M_bind. by rewrite E1.
Qed.


Lemma emits_try_except {A} P (m : M W A) (h : exn → M W A) :
  emits P m → (∀ e, emits P (h e)) → emits P (try_except m h).
Proof.
  intros Hm Hh w. destruct (Hm w) as (r & w1 & t1 & l1 & HP1 & E1).
  destruct r as [a|e].
  - exists (Ret a), w1, t1, l1. split; [done|].
    intros t l. unfold try_except. by rewrite E1.
  - destruct (Hh e w1) as (r2 & w2 & t2 & l2 & HP2 & E2).
    exists r2, w2, (t1 ++ t2), (l1 ++ l2). split; [by apply Forall_app|].
    intros t l. unfold try_except. by rewrite E1, E2, !app_assoc.
Qed.

Lemma emits_foldM {A B} P (f : B → A → M W B) xs :
  (∀ acc x, x ∈ xs → emits P (f acc x)) → ∀ acc, emits P (foldM f acc xs).
Proof.
  induction xs as [|x xs IH]; intros Hf acc; simpl.
  - apply emits_ret.
  - apply emits_bind.
    + apply Hf. by left.
    + intros acc'. apply IH. intros ???. apply Hf. by right.
Qed.

Lemma emits_weaken {A} (P Q : call → Prop) (m : M W A) :
  (∀ c, P c → Q c) → emits P m → emits Q m.
Proof.
  intros HPQ Hm w. destruct (Hm w) as (r & w1 & t1 & l1 & HP1 & E1).
  exists r, w1, t1, l1. split; [|done]. eapply Forall_impl; eauto.
Qed.

(** What [emits] says about one run. *)
Lemma emits_run {A} P (m : M W A) st :
  emits P m →
  ∃ t' l', Forall P t' ∧ trace (m st).2 = trace st ++ t' ∧ log (m st).2 = log st ++ l'.
Proof.
  intros Hm. destruct (Hm (world st)) as (r & w1 & t1 & l1 & HP1 & E1).
  exists t1, l1. destruct st as [w t l]; simpl in *. by rewrite E1.
Qed.

End Emits.

(** Syntax-directed proof of [emits] goals: split binds, handlers and loops,
    case on what the program branches on, and leave the calls to [tac]. *)
Ltac emits_step tac :=
  lazymatch goal with
  | |- emits _ (mret _) => apply emits_ret
  | |- emits _ (raise _) => apply emits_raise
  | |- emits _ (logger _ _) => apply emits_logger
  | |- emits _ (local_op _) => apply emits_local_op
  | |- emits _ (perform _ _) => apply emits_perform; tac
  | |- emits _ (_ ≫= _) => apply emits_bind; [|intros]
  | |- emits _ (try_except _ _) => apply emits_try_except; [|intros]
  | |- emits _ (foldM _ _ _) => apply emits_foldM; intros
  | |- emits _ (match ?x with _ => _ end) => destruct x
  | |- emits _ (if ?x then _ else _) => destruct x
  | |- emits _ (let '(_, _) := ?x in _) => destruct x
  end.

Ltac solve_emits tac := repeat emits_step tac.

Section Phases.
Context {W : Type} `{!Cloud W}.

Lemma emits_then_later {A} P Q (m : M W A) : emits Q m → emits_then P Q m.
Proof.
  intros Hm st. destruct (emits_run Q m st Hm) as (t' & l' & HQ & Ht & _).
  exists [], t'. by repeat split.
Qed.

Lemma emits_then_bind_first {A B} P Q (m : M W A) (f : A → M W B) :
  emits P m → (∀ a, emits_then P Q (f a)) → emits_then P Q (m ≫= f).
Proof.
  intros Hm Hf [w t l]. destruct (Hm w) as (r & w1 & t1 & l1 & HP1 & E1).
  unfold mbind, M_bind. rewrite E1. destruct r as [a|e].
  - destruct (Hf a (State w1 (t ++ t1) (l ++ l1))) as (u1 & u2 & HPu & HQu & Eu).
    exists (t1 ++ u1), u2. split; [by apply Forall_app|]. split; [done|].
    rewrite Eu. simpl. by rewrite !app_assoc.
  - exists t1, []. split; [done|]. split; [constructor|]. simpl. by rewrite app_nil_r.
Qed.

Lemma no_calls_any {A} P (m : M W A) : emits (λ _, False) m → emits P m.
Proof. apply emits_weaken. tauto. Qed.

Lemma quiet_trace {A} (m : M W A) (st : state W) :
  emits (λ _, False) m → trace (m st).2 = trace st.
Proof.
  intros Hm. destruct (emits_run _ m st Hm) as (t & l & Ht & -> & _).
  destruct Ht; [by rewrite app_nil_r|done].
Qed.

(** *** What each function of the program calls *)

Lemma _read_manifest_quiet path : emits (λ _, False) (_read_manifest path).
Proof. unfold _read_manifest. solve_emits fail. Qed.

Lemma read_template_or_missing_quiet path :
  emits (λ _, False) (read_template_or_missing path).
Proof. unfold read_template_or_missing, _read_template_file. solve_emits fail. Qed.

Lemma collect_entry_quiet dir d cfg : emits (λ _, False) (collect_entry dir d cfg).
Proof.
  unfold collect_entry. solve_emits fail; apply read_template_or_missing_quiet.
Qed.

Lemma collect_desired_quiet dir templates :
  emits (λ _, False) (collect_desired dir templates).
Proof. unfold collect_desired. apply emits_foldM. intros. apply collect_entry_quiet. Qed.

Lemma log_summary_quiet r : emits (λ _, False) (log_summary r : M W unit).
Proof. unfold log_summary. solve_emits fail. Qed.

Lemma _assume_role_calls P account_id :
  (∀ arn name, P (AssumeRole arn name)) → emits P (_assume_role account_id).
Proof. intros HP. unfold _assume_role. solve_emits ltac:(apply HP). Qed.

Lemma _get_existing_stacks_calls s : emits delete_phase_call (_get_existing_stacks s).
Proof. unfold _get_existing_stacks. solve_emits ltac:(exact I). Qed.

Lemma _delete_stack_calls s stack_name account_id :
  emits delete_phase_call (_delete_stack s stack_name account_id).
Proof. unfold _delete_stack. solve_emits ltac:(exact I). Qed.

Lemma _deploy_stack_calls s content stack_name account_id existing :
  emits deploy_phase_call (_deploy_stack s content stack_name account_id existing).
Proof. unfold _deploy_stack. solve_emits ltac:(exact I). Qed.

Lemma reconcile_account_calls account_stacks acc account_id :
  emits delete_phase_call (reconcile_account account_stacks acc account_id).
Proof.
  unfold reconcile_account, delete_orphan. destruct acc.
  solve_emits ltac:(exact I);
    first [ by apply _assume_role_calls
          | apply _get_existing_stacks_calls
          | apply _delete_stack_calls ].
Qed.

Lemma delete_phase_calls d : emits delete_phase_call (delete_phase d).
Proof. unfold delete_phase. apply emits_foldM. intros. apply reconcile_account_calls. Qed.

Lemma deploy_attempt_calls f content name existing r account_id :
  emits deploy_phase_call (deploy_attempt f content name existing r account_id).
Proof.
  unfold deploy_attempt.
  solve_emits ltac:(exact I);
    first [ by apply _assume_role_calls | apply _deploy_stack_calls ].
Qed.

Lemma deploy_account_calls f content name existing r account_id :
  emits deploy_phase_call (deploy_account f content name existing r account_id).
Proof.
  unfold deploy_account. solve_emits ltac:(exact I). apply deploy_attempt_calls.
Qed.

Lemma deploy_entry_calls dir existing r cfg :
  emits deploy_phase_call (deploy_entry dir existing r cfg).
Proof.
  unfold deploy_entry.
  solve_emits ltac:(exact I);
    first [ apply no_calls_any, read_template_or_missing_quiet
          | apply deploy_account_calls ].
Qed.

Lemma deploy_phase_calls dir templates existing r :
  emits deploy_phase_call (deploy_phase dir templates existing r).
Proof. unfold deploy_phase. apply emits_foldM. intros. apply deploy_entry_calls. Qed.

(** A run is the orphan clean-up of every account, then the deploy loop. *)
Lemma deploy_all_phases dir :
  emits_then delete_phase_call deploy_phase_call (deploy_all dir).
Proof.
  unfold deploy_all.
  apply emits_then_bind_first; [apply no_calls_any, _read_manifest_quiet|].
  intros m. destruct (manifest_templates m) as [templates|].
  - apply emits_then_bind_first; [apply no_calls_any, collect_desired_quiet|].
    intros d. apply emits_then_bind_first; [apply delete_phase_calls|].
    intros [r existing]. apply emits_then_later.
    apply emits_bind; [apply deploy_phase_calls|]. intros r'.
    apply emits_bind; [apply no_calls_any, log_summary_quiet|]. intros _.
    apply emits_ret.
  - apply emits_then_later. solve_emits fail.
Qed.



End Phases.

(** ** Single steps, run from any state *)

Section Steps.
Context {W : Type} `{!Cloud W}.

Lemma settled_app account names1 names2 (w w1 w2 : W) t1 t2 :
  settled account names1 w t1 w1 → settled account names2 w1 t2 w2 →
  settled account (names1 ++ names2) w (t1 ++ t2) w2.
Proof.
  intros H1 H2. induction H1; simpl; [done| |].
  - eapply settled_awaited; eauto.
  - eapply settled_refused; eauto.
Qed.

Lemma settled_calls account names (w w' : W) t :
  settled account names w t w' → Forall delete_phase_call t.
Proof. induction 1; repeat constructor; done. Qed.

(** One orphan of the deletion loop: the request, and the wait unless the
    request raised; nothing is raised. *)
Lemma delete_orphan_settles s account_id r name (st : state W) :
  ∃ r1 st1 t1,
    delete_orphan s account_id r name st = (Ret r1, st1) ∧
    trace st1 = trace st ++ t1 ∧
    settled (session_account s) [name] (world st) t1 (world st1).
Proof.
  destruct st as [w t l]. unfold delete_orphan, _delete_stack. unfold_monad. simpl.
  destruct (cfn_delete_stack (session_account s) name w) as [[[]|e] w1] eqn:Hdel; simpl.
  - destruct (cfn_wait_stack_delete_complete (session_account s) name w1)
      as [[u|e] w2] eqn:Hwait; simpl;
      eexists _, _, [DeleteStack (session_account s) name;
                     WaitStackDeleteComplete (session_account s) name];
      (split; [reflexivity|]); simpl; (split; [by rewrite <- app_assoc|]);
      eapply settled_awaited; eauto; constructor.
  - eexists _, _, [DeleteStack (session_account s) name].
    split; [reflexivity|]. simpl. split; [done|].
    eapply settled_refused; eauto. constructor.
Qed.

(** The deletion loop of one account (lines 208-210) does not raise, and
    submits and settles every planned name. *)
Lemma delete_loop_settles s account_id names : ∀ r (st : state W),
  ∃ r' st' t,
    foldM (delete_orphan s account_id) r names st = (Ret r', st') ∧
    trace st' = trace st ++ t ∧
    settled (session_account s) names (world st) t (world st').
Proof.
  induction names as [|name names IH]; intros r st; cbn [foldM].
  - exists r, st, []. rewrite app_nil_r. repeat split. constructor.
  - destruct (delete_orphan_settles s account_id r name st)
      as (r1 & st1 & t1 & E1 & Et1 & Hs1).
    unfold mbind, M_bind. rewrite E1.
    destruct (IH r1 st1) as (r' & st' & t & E & Et & Hs).
    exists r', st', (t1 ++ t). split; [exact E|].
    split; [by rewrite Et, Et1, app_assoc|].
    apply (settled_app _ [name] names _ _ _ _ _ Hs1 Hs).
Qed.

(** [_deploy_stack] makes one call, the request itself, and answers [True]
    unless that call raises. *)
Lemma _deploy_stack_run s content stack_name account_id existing (st : state W) :
  let a := session_account s in
  let c := if decide (stack_name ∈ dom existing)
           then UpdateStack a stack_name content
           else CreateStack a stack_name content in
  trace (_deploy_stack s content stack_name account_id existing st).2 = trace st ++ [c] ∧
  ((_deploy_stack s content stack_name account_id existing st).1 = Ret true
   ∨ ∃ e, (_deploy_stack s content stack_name account_id existing st).1 = Raise e).
Proof.
  destruct st as [w t l]. unfold _deploy_stack. simpl.
  destruct (decide (stack_name ∈ dom existing)) as [Hin|Hnin]; unfold_monad; simpl.
  - destruct (cfn_update_stack _ _ _ _ w) as [[u|e] w1]; simpl; eauto.
  - destruct (cfn_create_stack _ _ _ _ w) as [[u|e] w1]; simpl; eauto.
Qed.

(** One account of the orphan clean-up, when its role is assumed: the stacks
    recorded from the pages are kept for the deploy loop, and those the first
    pass does not expect in this account are deleted one after the other. *)
Lemma reconcile_account_run account_stacks r account_existing_stacks account_id
    (st : state W) w1 pages err w2 :
  let role_arn := "arn:aws:iam::" +:+ account_id +:+ ":role/" +:+ "RvmWorkflowRole" in
  let session_name := "rvm-deployment-" +:+ account_id in
  let existing_stacks := record_pages pages in
  let orphaned_stacks := dom existing_stacks ∖ default ∅ (account_stacks !! account_id) in
  sts_assume_role role_arn session_name (world st) = (Ret tt, w1) →
  cfn_list_stacks account_id ["CREATE_COMPLETE"; "UPDATE_COMPLETE"] w1 = ((pages, err), w2) →
  ∃ r' st' t,
    reconcile_account account_stacks (r, account_existing_stacks) account_id st =
      (Ret (r', <[account_id := existing_stacks]> account_existing_stacks), st') ∧
    trace st' = trace st ++ [AssumeRole role_arn session_name; ListStacks account_id] ++ t ∧
    settled account_id (set_iter orphaned_stacks) w2 t (world st').
Proof.
  intros role_arn session_name existing_stacks orphaned_stacks Hrole Hlist.
  destruct st as [w t l]. simpl in Hrole.
  unfold reconcile_account, _assume_role, _get_existing_stacks.
  unfold_monad. simpl. fold role_arn session_name. rewrite Hrole. simpl.
  rewrite Hlist. simpl. fold existing_stacks.
  destruct err as [e|]; simpl;
    match goal with |- context [foldM ?f ?r0 ?names ?st2] =>
      destruct (delete_loop_settles (Session account_id) account_id names r0 st2)
        as (r' & st' & t' & E & Et & Hs)
    end;
    rewrite E; exists r', st', t'; (split; [done|]); (split; [|exact Hs]);
    rewrite Et; simpl; by rewrite <- !app_assoc.
Qed.

Lemma cleaned_calls account_stacks accounts (w w' : W) t :
  cleaned account_stacks accounts w t w' → Forall delete_phase_call t.
Proof.
  induction 1; repeat constructor; try done.
  apply Forall_app. split; [by eapply settled_calls|done].
Qed.

(** The clean-up loop (lines 197-215) does not raise and goes through every
    account it is given. *)
Lemma delete_loop_cleaned account_stacks accounts :
  ∀ r account_existing_stacks (st : state W),
  ∃ r' account_existing_stacks' st' t,
    foldM (reconcile_account account_stacks) (r, account_existing_stacks) accounts st
      = (Ret (r', account_existing_stacks'), st') ∧
    trace st' = trace st ++ t ∧
    cleaned account_stacks accounts (world st) t (world st').
Proof.
  induction accounts as [|account accounts IH]; intros r existing st; cbn [foldM].
  - exists r, existing, st, []. rewrite app_nil_r. repeat split. constructor.
  - destruct (sts_assume_role ("arn:aws:iam::" +:+ account +:+ ":role/" +:+ "RvmWorkflowRole")
                ("rvm-deployment-" +:+ account) (world st)) as [[[]|e] w1] eqn:Hrole.
    + destruct (cfn_list_stacks account ["CREATE_COMPLETE"; "UPDATE_COMPLETE"] w1)
        as [[pages err] w2] eqn:Hlist.
      destruct (reconcile_account_run account_stacks r existing account st w1 pages err w2
                  Hrole Hlist) as (r1 & st1 & t1 & E1 & Et1 & Hs1).
      unfold mbind, M_bind. rewrite E1.
      destruct (IH r1 (<[account := record_pages pages]> existing) st1)
        as (r' & existing' & st' & t & E & Et & Hc).
      eexists r', existing', st', _. split; [exact E|]. split.
      * rewrite Et, Et1, <- !app_assoc. reflexivity.
      * simpl. eapply cleaned_listed; eauto.
    + assert (reconcile_account account_stacks (r, existing) account st =
                (Ret (r, existing),
                 State w1
                   (trace st ++ [AssumeRole
                      ("arn:aws:iam::" +:+ account +:+ ":role/" +:+ "RvmWorkflowRole")
                      ("rvm-deployment-" +:+ account)])
                   (log st ++ [(ERROR, LogOrphanCheckFailed account e)]))) as E1.
      { destruct st as [w t l]. simpl in Hrole.
        unfold reconcile_account, _assume_role. unfold_monad. simpl. by rewrite Hrole. }
      unfold mbind, M_bind. rewrite E1.
      match goal with |- context [foldM _ _ _ ?st1] =>
        destruct (IH r existing st1) as (r' & existing' & st' & t & E & Et & Hc) end.
      eexists r', existing', st', _. split; [exact E|]. split.
      * rewrite Et. simpl. rewrite <- app_assoc. reflexivity.
      * simpl. eapply cleaned_refused; eauto.
Qed.

(** The deploy loop submits every request of an entry under the name that
    [_generate_stack_name] gives its template, whatever the account. *)
Lemma deploy_entry_submits_generated_name dir existing r cfg :
  emits (submits_as (_generate_stack_name (default "" (cfg_template_file cfg))))
    (deploy_entry dir existing r cfg).
Proof.
  unfold deploy_entry.
  solve_emits ltac:(exact I);
    first [ apply no_calls_any, read_template_or_missing_quiet | idtac ].
  unfold deploy_account, deploy_attempt, _assume_role, _deploy_stack.
  solve_emits ltac:(by simpl).
Qed.

Lemma Forall_filter_keep (P Q : call → Prop) `{!∀ c, Decision (P c)} (t : list call) :
  Forall Q t → Forall Q (filter P t).
Proof.
  rewrite !Forall_forall. intros Ht c [_ Hc]%list_elem_of_filter. by apply Ht.
Qed.

Lemma deletes_first_split (t1 t2 : list call) :
  Forall (λ c, is_deploy_call c = false) t1 →
  Forall (λ c, is_delete_call c = false) t2 →
  deletes_first (t1 ++ t2) = true.
Proof.
  intros H1 H2. induction H1 as [|c t1 Hc _ IH]; simpl; [|by rewrite Hc].
  induction H2 as [|c t2 Hc Ht IH]; simpl; [done|].
  destruct (is_deploy_call c); [|done].
  clear IH Hc. induction Ht as [|c' t2 Hc' _ IH]; simpl; [done|]. by rewrite Hc'.
Qed.

End Steps.

(** ** Strings *)

Lemma append_nil_l (s : string) : "" +:+ s = s.
Proof. reflexivity. Qed.

Lemma append_cons (c : ascii) (s t : string) : String c s +:+ t = String c (s +:+ t).
Proof. reflexivity. Qed.

Lemma mem_append_char (c : ascii) (s t : string) : PyStr.mem c (s +:+ String c t) = true.
Proof.
  induction s as [|a s IH].
  - rewrite append_nil_l. simpl. by rewrite decide_True.
  - rewrite append_cons. simpl. by destruct (decide (a = c)).
Qed.

(** A string is cut in one way only at its last occurrence of [c]. *)
Lemma split_at_last (c : ascii) (s1 s2 a1 a2 : string) :
  PyStr.mem c a1 = false → PyStr.mem c a2 = false →
  s1 +:+ String c a1 = s2 +:+ String c a2 → s1 = s2 ∧ a1 = a2.
Proof.
  intros H1 H2. revert s2.
  induction s1 as [|x s1 IH]; intros [|y s2]; rewrite ?append_nil_l, ?append_cons; intros E.
  - by simplify_eq.
  - simplify_eq. by rewrite mem_append_char in H1.
  - simplify_eq. by rewrite mem_append_char in H2.
  - injection E as -> E. destruct (IH _ E) as [-> ->]. done.
Qed.

Lemma _generate_stack_name_base (template_file : string) :
  _generate_stack_name template_file = STACK_PREFIX +:+ "-" +:+ template_base_name template_file.
Proof. reflexivity. Qed.

Lemma length_append (s t : string) :
  String.length (s +:+ t) = (String.length s + String.length t)%nat.
Proof. induction s as [|c s IH]; [done|]. rewrite append_cons. simpl. by rewrite IH. Qed.

(** The name recorded in the expected set is longer than the generated name
    by the hyphen and the account id. *)
Lemma expected_stack_name_length (template_file account_id : string) :
  String.length (expected_stack_name template_file account_id) =
  (String.length (_generate_stack_name template_file) + 1 + String.length account_id)%nat.
Proof.
  unfold expected_stack_name. rewrite !length_append.
  change (String.length "-") with 1%nat. lia.
Qed.

(** ** The claims *)

(** C8, as amended. The naming function is a function of the template and the
    account alone, and for account ids without a hyphen two pairs get the same
    stack name exactly when their templates have the same base name and their
    account ids are equal. *)
Theorem stack_name_collisions (f1 a1 f2 a2 : string) :
  PyStr.mem "-" a1 = false → PyStr.mem "-" a2 = false →
  (f1 = f2 → a1 = a2 → expected_stack_name f1 a1 = expected_stack_name f2 a2) ∧
  (expected_stack_name f1 a1 = expected_stack_name f2 a2 ↔
   template_base_name f1 = template_base_name f2 ∧ a1 = a2).
Proof.
  intros H1 H2. split; [by intros -> ->|].
  unfold expected_stack_name. rewrite !_generate_stack_name_base.
  change ("-" +:+ a1) with (String "-" a1). change ("-" +:+ a2) with (String "-" a2).
  split.
  - intros E. apply (split_at_last _ _ _ _ _ H1 H2) in E as [E ->].
    split; [|done]. by do 2 apply (inj (String.append _)) in E.
  - by intros [-> ->].
Qed.

Lemma stack_name_collisions_witness :
  (expected_stack_name "stacks/net.yaml" "111" = expected_stack_name "net.json" "111" ↔
   template_base_name "stacks/net.yaml" = template_base_name "net.json" ∧ "111" = "111").
Proof.
  apply (stack_name_collisions "stacks/net.yaml" "111" "net.json" "111"); reflexivity.
Defined.

(** C8, as stated, fails: two templates in different directories have the
    same base name, and their stacks in one account get the same name. *)
Lemma stack_name_collision_example :
  ("a/net.yaml", "111") ≠ ("b/net.yaml", "111") ∧
  expected_stack_name "a/net.yaml" "111" = expected_stack_name "b/net.yaml" "111".
Proof. split; [discriminate|reflexivity]. Qed.

Section Claims.
Context {W : Type} `{!Cloud W}.

Lemma set_iter_elem_of (names : gset string) (name : string) :
  name ∈ set_iter names ↔ name ∈ names.
Proof. by rewrite set_iter_perm, elem_of_elements. Qed.

Lemma set_iter_empty : set_iter (∅ : gset string) = [].
Proof. apply Permutation_nil_r. by rewrite set_iter_perm, elements_empty. Qed.

(** C6. In every run that gets to the clean-up, the calls are those of the
    clean-up followed by those of the deploy loop. The clean-up goes through
    every account of the first pass: for an account whose role is assumed,
    every stack listed for it that the first pass does not expect there (its
    planned deletions) is submitted and then awaited, whatever the wait
    answers, and left unawaited only when the submission itself raised. The
    creates and updates come after all of that, so for every account each
    planned deletion is settled before any create or update of that account
    is submitted. After the clean-up nothing is awaited: a deploy makes its
    one request and goes on. *)
Theorem orphans_settle_before_deploy
    (extracted_dir : string) (st st0 st1 : state W) (m : manifest)
    (templates : list template_config) (d : desired) :
  _read_manifest (PosixPath.join extracted_dir "manifest.json") st = (Ret m, st0) →
  manifest_templates m = Some templates →
  collect_desired extracted_dir templates st0 = (Ret d, st1) →
  (∃ cleanup deploys w2,
     trace (deploy_all extracted_dir st).2 = trace st ++ cleanup ++ deploys ∧
     cleaned (account_stacks d) (set_iter (all_accounts d)) (world st1) cleanup w2 ∧
     Forall deploy_phase_call deploys ∧
     ∀ account,
       deletes_first (filter (λ c, call_account c = Some account) (cleanup ++ deploys))
       = true) ∧
  (∀ account, account ∈ set_iter (all_accounts d) ↔ account ∈ all_accounts d) ∧
  (∀ s content stack_name account_id existing (st2 : state W),
     ∃ c, is_deploy_call c = true ∧
          trace (_deploy_stack s content stack_name account_id existing st2).2
          = trace st2 ++ [c]).
Proof.
  intros Hm Htemplates Hd.
  split; [|split].
  - destruct (delete_loop_cleaned (account_stacks d) (set_iter (all_accounts d))
                (d_results d) ∅ st1) as (r & existing & st2 & cleanup & E2 & Et2 & Hc).
    destruct (emits_run _ _ st2 (deploy_phase_calls extracted_dir templates existing r))
      as (deploys & l' & Hdeploys & Et3 & _).
    assert (trace st1 = trace st) as Et1.
    { pose proof (quiet_trace _ st (_read_manifest_quiet
                    (PosixPath.join extracted_dir "manifest.json"))) as E0.
      pose proof (quiet_trace _ st0 (collect_desired_quiet extracted_dir templates)) as E1.
      rewrite Hm in E0. rewrite Hd in E1. simpl in *. congruence. }
    exists cleanup, deploys, (world st2). split; [|split; [exact Hc|split; [exact Hdeploys|]]].
    + unfold deploy_all. unfold mbind at 1, M_bind at 1. rewrite Hm, Htemplates.
      unfold mbind at 1, M_bind at 1. rewrite Hd.
      unfold mbind at 1, M_bind at 1. unfold delete_phase. rewrite E2.
      unfold mbind at 1, M_bind at 1.
      destruct (deploy_phase extracted_dir templates existing r st2) as [[r'|e] st3];
        simpl in Et3.
      * pose proof (quiet_trace _ st3 (log_summary_quiet r')) as E4.
        unfold mbind, M_bind, mret, M_ret.
        destruct (log_summary r' st3) as [[[]|e] st4]; simpl in *;
          rewrite E4, Et3, Et2, Et1; by rewrite <- app_assoc.
      * simpl. rewrite Et3, Et2, Et1. by rewrite <- app_assoc.
    + intros account. rewrite filter_app. apply deletes_first_split.
      * apply Forall_filter_keep. eapply Forall_impl; [exact (cleaned_calls _ _ _ _ _ Hc)|].
        by intros [].
      * apply Forall_filter_keep. eapply Forall_impl; [exact Hdeploys|]. by intros [].
  - intros account. apply set_iter_elem_of.
  - intros s content stack_name account_id existing st2.
    destruct (_deploy_stack_run s content stack_name account_id existing st2) as [Et _].
    eexists. split; [|exact Et]. by destruct (decide _).
Qed.

(** C9. [_deploy_stack] answers [True] whenever it answers, so the [try]
    block of the deploy loop either raises or records a success: an entry
    reaches the failed list only through the exception handler, which logs
    the exception first, and the [else] branch is never taken. *)
Theorem _deploy_stack_never_false
    (s : session) (template_file content stack_name account_id : string)
    (existing : gmap string string)
    (account_existing_stacks : gmap string (gmap string string))
    (r : results) (st : state W) :
  let entry := template_file +:+ ":" +:+ account_id in
  let attempt :=
    deploy_attempt template_file content stack_name account_existing_stacks r account_id st in
  let step :=
    deploy_account template_file content stack_name account_existing_stacks r account_id st in
  ((_deploy_stack s content stack_name account_id existing st).1 = Ret true
   ∨ ∃ e, (_deploy_stack s content stack_name account_id existing st).1 = Raise e) ∧
  (attempt.1 = Ret (Results (success r ++ [entry]) (failed r) (deleted r))
   ∨ ∃ e, attempt.1 = Raise e) ∧
  ((step.1 = Ret (Results (success r ++ [entry]) (failed r) (deleted r))
    ∧ attempt.1 = step.1)
   ∨ ∃ e, attempt.1 = Raise e
          ∧ step.1 = Ret (Results (success r) (failed r ++ [entry]) (deleted r))
          ∧ log step.2 = log attempt.2 ++ [(ERROR, LogDeployFailed template_file account_id e)]).
Proof.
  intros entry attempt step.
  split; [apply _deploy_stack_run|].
  assert (attempt.1 = Ret (Results (success r ++ [entry]) (failed r) (deleted r))
          ∨ ∃ e, attempt.1 = Raise e) as Hattempt.
  { subst attempt. unfold deploy_attempt, _assume_role. destruct st as [w t l].
    unfold mbind, M_bind, perform, logger. simpl.
    destruct (sts_assume_role _ _ w) as [[u|e] w1]; simpl; [|eauto].
    match goal with |- context [_deploy_stack ?s ?c ?n ?a ?ex ?st0] =>
      destruct (_deploy_stack_run s c n a ex st0) as [_ Hrun];
      destruct (_deploy_stack s c n a ex st0) as [[b|e] st1] end; simpl in *.
    - destruct Hrun as [[= ->]|[e [=]]]. by left.
    - eauto. }
  split; [exact Hattempt|].
  subst step. unfold deploy_account, try_except. fold attempt.
  destruct attempt as [[r'|e] st1]; simpl in *.
  - left. destruct Hattempt as [[= ->]|[e [=]]]. done.
  - right. exists e. done.
Qed.


(** C7, as amended. A manifest without the [templates] key makes the run a
    soft failure: [deploy_all] logs a warning and returns the empty result,
    having called nothing. A manifest that cannot be read or parsed makes
    [deploy_all] raise the exception of the reader, with nothing logged, and
    [lambda_handler] answers it with status 500. *)
Theorem malformed_manifest (extracted_dir : string) (st : state W) :
  let manifest_path := PosixPath.join extracted_dir "manifest.json" in
  (∀ w', json_file_load manifest_path (world st) = (Ret (Manifest None), w') →
         deploy_all extracted_dir st =
           (Ret empty_results,
            State w' (trace st) (log st ++ [(WARNING, LogNoTemplatesSection)]))) ∧
  (∀ e w', json_file_load manifest_path (world st) = (Raise e, w') →
           deploy_all extracted_dir st = (Raise e, State w' (trace st) (log st))) ∧
  (∀ ev s3_event rest (st0 : state W) e w',
     Records ev = Some (s3_event :: rest) →
     _download_and_extract_zip (s3_bucket_name s3_event) (s3_object_key s3_event)
       (State (world st0) (trace st0)
          (log st0 ++ [(INFO, LogReceivedEvent ev);
                       (INFO, LogProcessing (s3_bucket_name s3_event)
                                (s3_object_key s3_event))]))
       = (Ret extracted_dir, st) →
     json_file_load manifest_path (world st) = (Raise e, w') →
     lambda_handler ev st0 =
       (Ret (Response 500 (ErrorBody (str_exn e))),
        State w' (trace st) (log st ++ [(ERROR, LogError e)]))).
Proof.
  intros manifest_path.
  assert (∀ e w', json_file_load manifest_path (world st) = (Raise e, w') →
            deploy_all extracted_dir st = (Raise e, State w' (trace st) (log st)))
    as Hraise.
  { intros e w' Hload. unfold deploy_all, _read_manifest. unfold_monad.
    fold manifest_path. by rewrite Hload. }
  split; [|split; [exact Hraise|]].
  - intros w' Hload. unfold deploy_all, _read_manifest. unfold_monad.
    fold manifest_path. by rewrite Hload.
  - intros ev s3_event rest st0 e w' Hrec Hzip Hload.
    unfold lambda_handler, process_event, first_record. rewrite Hrec.
    unfold report_error, try_except, mbind, M_bind, mret, M_ret, logger. simpl.
    rewrite <- app_assoc. simpl.
    rewrite Hzip. by rewrite (Hraise e w' Hload).
Qed.


End Claims.

(** ** The claims on the simulated cloud *)



(** In [orphan_world] the orphan of account [111] is deleted and awaited
    before the stack of [net.yaml] is created there. *)
Lemma orphans_settle_before_deploy_witness :
  (∃ cleanup deploys w2,
     trace (deploy_all "/b" (State orphan_world [] [])).2 = [] ++ cleanup ++ deploys ∧
     cleaned (account_stacks orphan_desired) (set_iter (all_accounts orphan_desired))
       orphan_world cleanup w2 ∧
     Forall deploy_phase_call deploys ∧
     ∀ account,
       deletes_first (filter (λ c, call_account c = Some account) (cleanup ++ deploys))
       = true) ∧
  trace (deploy_all "/b" (State orphan_world [] [])).2 =
    [AssumeRole "arn:aws:iam::111:role/RvmWorkflowRole" "rvm-deployment-111";
     ListStacks "111";
     DeleteStack "111" "rvm-provisioned-old-111";
     WaitStackDeleteComplete "111" "rvm-provisioned-old-111";
     AssumeRole "arn:aws:iam::111:role/RvmWorkflowRole" "rvm-deployment-111";
     CreateStack "111" "rvm-provisioned-net" "Resources: {}"].
Proof.
  split; [|by vm_compute].
  refine (proj1 (orphans_settle_before_deploy "/b" (State orphan_world [] [])
                   (State orphan_world [] []) (State orphan_world [] []) net_manifest
                   [TemplateConfig (Some "net.yaml") (Some ["111"])] orphan_desired _ _ _)).
  - reflexivity.
  - reflexivity.
  - by vm_compute.
Defined.

(** In [no_templates_world] the run is a soft failure; in
    [broken_manifest_world] it raises. *)
Lemma malformed_manifest_witness :
  deploy_all "/b" (State no_templates_world [] []) =
    (Ret empty_results, State no_templates_world [] [(WARNING, LogNoTemplatesSection)]) ∧
  deploy_all "/b" (State broken_manifest_world [] []) =
    (Raise (JSONDecodeError "Expecting value: line 1 column 1 (char 0)"),
     State broken_manifest_world [] []).
Proof.
  split.
  - apply (proj1 (malformed_manifest "/b" (State no_templates_world [] []))).
    reflexivity.
  - apply (proj1 (proj2 (malformed_manifest "/b" (State broken_manifest_world [] [])))).
    reflexivity.
Defined.

(** C7, as stated, fails for a manifest that cannot be parsed: [deploy_all]
    raises instead of returning the empty result, and it is [lambda_handler]
    that turns the exception into a response, with status 500. *)
Lemma unparsable_manifest_raises :
  (run (deploy_all "/b") broken_manifest_world).1 =
    Raise (JSONDecodeError "Expecting value: line 1 column 1 (char 0)") ∧
  (run (lambda_handler (Event (Some [S3Record "cfg" "rvm.zip"]))) uploaded_broken_world).1 =
    Ret (Response 500 (ErrorBody "Expecting value: line 1 column 1 (char 0)")).
Proof. split; by vm_compute. Qed.

(** C1: the code breaks the claim. For [net.yaml] and account [111] the first
    pass records the expected stack [rvm-provisioned-net-111], and the deploy
    loop submits the create under the name [rvm-provisioned-net], without the
    account id. *)
Theorem deploy_name_lacks_account_id :
  (∃ d, (run (collect_desired "/b" [TemplateConfig (Some "net.yaml") (Some ["111"])])
           net_world).1 = Ret d ∧
        elements <$> account_stacks d !! "111" = Some [expected_stack_name "net.yaml" "111"] ∧
        elements (expected_stacks d) = [expected_stack_name "net.yaml" "111"]) ∧
  expected_stack_name "net.yaml" "111" = "rvm-provisioned-net-111" ∧
  _generate_stack_name "net.yaml" = "rvm-provisioned-net" ∧
  trace first_run.2 =
    [AssumeRole "arn:aws:iam::111:role/RvmWorkflowRole" "rvm-deployment-111";
     ListStacks "111";
     AssumeRole "arn:aws:iam::111:role/RvmWorkflowRole" "rvm-deployment-111";
     CreateStack "111" (_generate_stack_name "net.yaml") "Resources: {}"].
Proof.
  split; [|split; [reflexivity|split; [reflexivity|by vm_compute]]].
  eexists. split; [by vm_compute|]. split; by vm_compute.
Qed.

(** C3: the code breaks the claim. The first run creates
    [rvm-provisioned-net] in account [111]; the second run, started in the
    world the first one left, finds that stack, does not find it among the
    expected names, deletes it as an orphan, and then fails to update it. *)
Theorem second_run_deletes_deployed_stack :
  first_run.1 = Ret (Results ["net.yaml:111"] [] []) ∧
  map_to_list (sim_account (world first_run.2) "111") =
    [("rvm-provisioned-net", "CREATE_COMPLETE")] ∧
  trace second_run.2 =
    [AssumeRole "arn:aws:iam::111:role/RvmWorkflowRole" "rvm-deployment-111";
     ListStacks "111";
     DeleteStack "111" "rvm-provisioned-net";
     WaitStackDeleteComplete "111" "rvm-provisioned-net";
     AssumeRole "arn:aws:iam::111:role/RvmWorkflowRole" "rvm-deployment-111";
     UpdateStack "111" "rvm-provisioned-net" "Resources: {}"] ∧
  second_run.1 = Ret (Results [] ["net.yaml:111"] ["rvm-provisioned-net:111"]) ∧
  map_to_list (sim_account (world second_run.2) "111") = [].
Proof. repeat split; by vm_compute. Qed.

(** C4: the code breaks the claim. In the second run of the first scenario
    the first pass expects [rvm-provisioned-net-111] in account [111] and the
    listing observes [rvm-provisioned-net] there. The plan the run carries
    out in that account deletes [rvm-provisioned-net] and updates
    [rvm-provisioned-net]: the sets to update and to delete share a stack,
    and the expected name is in none of the three sets, so their union is not
    the union of the expected and the observed names. In the first run
    already the one name created is not an expected name. *)
Theorem executed_plan_overlaps :
  ∃ d r account_existing_stacks expected observed,
    second_run_desired.1 = Ret d ∧
    account_stacks d !! "111" = Some expected ∧
    elements expected = ["rvm-provisioned-net-111"] ∧
    second_run_cleanup.1 = Ret (r, account_existing_stacks) ∧
    account_existing_stacks !! "111" = Some observed ∧
    elements (dom observed) = ["rvm-provisioned-net"] ∧
    trace second_run.2 =
      trace second_run_cleanup.2 ++
      [AssumeRole "arn:aws:iam::111:role/RvmWorkflowRole" "rvm-deployment-111";
       UpdateStack "111" "rvm-provisioned-net" "Resources: {}"] ∧
    elements (toCreate (executed_plan "111" (trace second_run.2))) = [] ∧
    elements (toUpdate (executed_plan "111" (trace second_run.2))) = ["rvm-provisioned-net"] ∧
    elements (toDelete (executed_plan "111" (trace second_run.2))) = ["rvm-provisioned-net"] ∧
    elements (toUpdate (executed_plan "111" (trace second_run.2))
              ∩ toDelete (executed_plan "111" (trace second_run.2)))
      = ["rvm-provisioned-net"] ∧
    elements (toCreate (executed_plan "111" (trace second_run.2))
              ∪ toUpdate (executed_plan "111" (trace second_run.2))
              ∪ toDelete (executed_plan "111" (trace second_run.2)))
      = ["rvm-provisioned-net"] ∧
    elements (expected ∪ dom observed) = ["rvm-provisioned-net-111"; "rvm-provisioned-net"] ∧
    elements (toCreate (executed_plan "111" (trace first_run.2))) = ["rvm-provisioned-net"].
Proof.
  eexists _, _, _, _, _.
  split; [by vm_compute|]. split; [by vm_compute|]. split; [by vm_compute|].
  split; [by vm_compute|]. split; [by vm_compute|].
  repeat split; by vm_compute.
Qed.

(** C5: the code breaks the claim. With [net.yaml] missing from the bundle the
    account is put on the failed list as the bare id [111], not as
    [net.yaml:111]; no call is made. *)
Theorem missing_template_records_bare_account :
  (run (deploy_all "/b") missing_template_world).1 = Ret (Results [] ["111"] []) ∧
  trace (run (deploy_all "/b") missing_template_world).2 = [] ∧
  "111" ≠ "net.yaml" +:+ ":" +:+ "111".
Proof. repeat split; by vm_compute. Qed.

(** * Further properties of the code *)

(** ** More rules of the monad *)

Section MoreRules.
Context {W : Type}.

(** In a bind the continuation matters only at the values the first part can
    answer. *)
Lemma emits_bind_returns {A B} P (m : M W A) (f : A → M W B) :
  emits P m → (∀ a, returns m a → emits P (f a)) → emits P (m ≫= f).
Proof.
  intros Hm Hf w. destruct (Hm w) as (r & w1 & t1 & l1 & HP1 & E1).
  destruct r as [a|e].
  - assert (returns m a) as Hr by (eexists _, _; apply (E1 [] [])).
    destruct (Hf a Hr w1) as (r2 & w2 & t2 & l2 & HP2 & E2).
    exists r2, w2, (t1 ++ t2), (l1 ++ l2). split; [by apply Forall_app|].
    intros t l. unfold mbind, M_bind. by rewrite E1, E2, !app_assoc.
  - exists (Raise e), w1, t1, l1. split; [done|].
    intros t l. unfold mbind, M_bind. by rewrite E1.
Qed.

Lemma bind_Ret_inv {A B} (m : M W A) (f : A → M W B) st b st' :
  (m ≫= f) st = (Ret b, st') → ∃ a st1, m st = (Ret a, st1) ∧ f a st1 = (Ret b, st').
Proof.
  unfold mbind, M_bind. destruct (m st) as [[a|e] st1]; [eauto|discriminate].
Qed.

Lemma returns_bind {A B} (m : M W A) (f : A → M W B) b :
  returns (m ≫= f) b → ∃ a, returns m a ∧ returns (f a) b.
Proof.
  intros (st & st' & E). apply bind_Ret_inv in E as (a & st1 & E1 & E2).
  exists a. split; eexists _, _; eauto.
Qed.

End MoreRules.

(** ** The listing of an account *)

Lemma prefix_append (p s : string) : String.prefix p (p +:+ s) = true.
Proof.
  induction p as [|c p IH]; [by destruct s|].
  rewrite append_cons. simpl. by destruct (ascii_dec c c).
Qed.

Lemma record_pages_concat (pages : list (list stack_summary)) :
  record_pages pages = foldl record_stack ∅ (concat pages).
Proof.
  unfold record_pages. generalize (∅ : gmap string string).
  induction pages as [|page pages IH]; intros acc; simpl; [done|].
  by rewrite IH, foldl_app.
Qed.

Lemma record_stacks_lookup (name : string) (stacks : list stack_summary) :
  foldl record_stack ∅ stacks !! name =
  if managed_name name
  then StackStatus <$> last (filter (λ stack, StackName stack = name) stacks)
  else None.
Proof.
  induction stacks as [|stack stacks IH] using rev_ind.
  - cbn. by destruct (managed_name name).
  - rewrite foldl_app, filter_app. cbn [foldl]. unfold record_stack at 1.
    fold (managed_name (StackName stack)).
    rewrite filter_cons, filter_nil.
    destruct (decide (StackName stack = name)) as [E|Hne].
    + rewrite E. destruct (managed_name name) eqn:Hm; [|exact IH].
      by rewrite lookup_insert_eq, last_snoc.
    + rewrite app_nil_r.
      destruct (managed_name (StackName stack));
        [rewrite lookup_insert_ne by done|]; exact IH.
Qed.

Lemma record_pages_lookup (name : string) (pages : list (list stack_summary)) :
  record_pages pages !! name =
  if managed_name name then StackStatus <$> last (summaries_of name pages) else None.
Proof. rewrite record_pages_concat. apply record_stacks_lookup. Qed.

Lemma record_pages_managed (name : string) (pages : list (list stack_summary)) :
  name ∈ dom (record_pages pages) → managed_name name = true.
Proof.
  rewrite elem_of_dom, record_pages_lookup.
  destruct (managed_name name); [done|]. by intros [? ?].
Qed.

Section Listing.
Context {W : Type} `{!Cloud W}.

Lemma emits_and {A} (P Q : call → Prop) (m : M W A) :
  emits P m → emits Q m → emits (λ c, P c ∧ Q c) m.
Proof.
  intros HP HQ w. destruct (HP w) as (r & w1 & t1 & l1 & HP1 & E1).
  destruct (HQ w) as (r' & w2 & t2 & l2 & HQ2 & E2).
  exists r, w1, t1, l1. split; [|done].
  pose proof (E1 [] []) as E. rewrite (E2 [] []) in E. simpl in E.
  injection E as _ _ -> _. apply Forall_and. done.
Qed.

Lemma returns_get_existing_stacks s existing_stacks :
  returns (_get_existing_stacks s) existing_stacks →
  ∃ pages, existing_stacks = record_pages pages.
Proof.
  intros ([w t l] & st' & E). unfold _get_existing_stacks in E. unfold_monad. simpl in E.
  destruct (cfn_list_stacks _ _ w) as [[pages err] w']. simpl in E.
  exists pages. destruct err; simpl in E; by simplify_eq.
Qed.

Lemma returns_assume_role account_id s :
  returns (_assume_role account_id) s → s = Session account_id.
Proof.
  intros ([w t l] & st' & E). unfold _assume_role in E. unfold_monad. simpl in E.
  destruct (sts_assume_role _ _ w) as [[u|e] w']; simpl in E; by simplify_eq.
Qed.

Lemma reconcile_account_managed account_stacks acc account_id :
  emits touches_managed_only (reconcile_account account_stacks acc account_id).
Proof.
  unfold reconcile_account. destruct acc as [r existing].
  apply emits_try_except; [|intros e; solve_emits fail].
  apply emits_bind; [by apply _assume_role_calls|]. intros s.
  apply emits_bind_returns.
  { unfold _get_existing_stacks. solve_emits ltac:(exact I). }
  intros existing_stacks [pages ->]%returns_get_existing_stacks.
  apply emits_bind; [|intros; apply emits_ret].
  apply emits_foldM. intros r0 name [Hname _]%set_iter_elem_of%elem_of_difference.
  apply record_pages_managed in Hname.
  unfold delete_orphan, _delete_stack. solve_emits ltac:(exact Hname).
Qed.

Lemma deploy_entry_managed dir existing r cfg :
  emits touches_managed_only (deploy_entry dir existing r cfg).
Proof.
  eapply emits_weaken;
    [|apply emits_and;
      [apply deploy_entry_submits_generated_name|apply deploy_entry_calls]].
  intros [] [Hname Hcall]; try done; simpl in *; subst;
    rewrite _generate_stack_name_base; apply prefix_append.
Qed.

End Listing.

Section Managed.
Context {W : Type} `{!Cloud W}.

Lemma deploy_all_managed dir : emits touches_managed_only (deploy_all dir).
Proof.
  unfold deploy_all.
  apply emits_bind; [apply no_calls_any, _read_manifest_quiet|].
  intros m. destruct (manifest_templates m) as [templates|]; [|solve_emits fail].
  apply emits_bind; [apply no_calls_any, collect_desired_quiet|]. intros d.
  apply emits_bind.
  { unfold delete_phase. apply emits_foldM. intros. apply reconcile_account_managed. }
  intros [r existing]. apply emits_bind.
  { unfold deploy_phase. apply emits_foldM. intros. apply deploy_entry_managed. }
  intros r'. apply emits_bind; [apply no_calls_any, log_summary_quiet|]. intros _.
  apply emits_ret.
Qed.

(** X1. Whatever the manifest and whatever the cloud answers, every stack a
    run deletes, awaits, creates or updates has a name that starts with
    [STACK_PREFIX]: stacks outside the prefix are never touched, even when
    they are listed. *)
Theorem run_touches_managed_stacks_only (extracted_dir : string) (st : state W) :
  ∃ t, trace (deploy_all extracted_dir st).2 = trace st ++ t ∧
       Forall touches_managed_only t.
Proof.
  destruct (emits_run _ _ st (deploy_all_managed extracted_dir)) as (t & l & Ht & Et & _).
  by exists t.
Qed.

(** X2. [_get_existing_stacks] never raises, whether the paginator fails or
    not, and makes the one listing call. The dictionary it answers holds
    exactly the names of the pages read that start with [STACK_PREFIX], each
    with the status of its last summary; other names are dropped. *)
Theorem listing_keeps_managed_stacks (s : session) (st : state W) :
  let answer :=
    cfn_list_stacks (session_account s) ["CREATE_COMPLETE"; "UPDATE_COMPLETE"] (world st) in
  let pages := answer.1.1 in
  ∃ existing_stacks st',
    _get_existing_stacks s st = (Ret existing_stacks, st') ∧
    world st' = answer.2 ∧
    trace st' = trace st ++ [ListStacks (session_account s)] ∧
    ∀ name,
      existing_stacks !! name =
      if managed_name name then StackStatus <$> last (summaries_of name pages) else None.
Proof.
  intros answer pages. destruct st as [w t l]. subst pages answer.
  unfold _get_existing_stacks. unfold_monad. simpl.
  destruct (cfn_list_stacks _ _ w) as [[pages err] w']. simpl.
  destruct err; eexists _, _; (split; [reflexivity|]); simpl;
    repeat split; intros name; apply record_pages_lookup.
Qed.

End Managed.

(** ** The loops of [deploy_all] *)

Section Loops.
Context {W : Type} `{!Cloud W}.

(** One account of the deploy loop: it never raises, and records the entry
    once, as a success or as a failure. *)
Lemma deploy_account_run template_file content stack_name existing r account_id
    (st : state W) :
  let entry := template_file +:+ ":" +:+ account_id in
  ∃ (ok : bool) st',
    deploy_account template_file content stack_name existing r account_id st =
      (Ret (if ok then Results (success r ++ [entry]) (failed r) (deleted r)
            else Results (success r) (failed r ++ [entry]) (deleted r)), st').
Proof.
  intros entry. unfold deploy_account, deploy_attempt, _assume_role.
  destruct st as [w t l]. unfold_monad. simpl.
  destruct (sts_assume_role _ _ w) as [[u|e] w1]; simpl; [|by exists false; eexists].
  match goal with |- context [_deploy_stack ?s ?c ?n ?a ?ex ?st0] =>
    destruct (_deploy_stack_run s c n a ex st0) as [_ Hrun];
    destruct (_deploy_stack s c n a ex st0) as [[b|e] st1] end; simpl in *.
  - destruct Hrun as [[= ->]|[e [=]]]. by exists true; eexists.
  - by exists false; eexists.
Qed.

(** One orphan of the clean-up loop. *)
Lemma delete_orphan_run s account_id r stack_name (st : state W) :
  ∃ st',
    delete_orphan s account_id r stack_name st =
      (Ret (if deletion_completes (session_account s) stack_name (world st)
            then Results (success r) (failed r)
                   (deleted r ++ [stack_name +:+ ":" +:+ account_id])
            else r), st').
Proof.
  destruct st as [w t l]. unfold delete_orphan, _delete_stack, deletion_completes.
  unfold_monad. simpl.
  destruct (cfn_delete_stack _ _ w) as [[u|e] w1]; simpl; [|by eexists].
  destruct (cfn_wait_stack_delete_complete _ _ w1) as [[u'|e] w2]; simpl; by eexists.
Qed.

Lemma delete_loop_results s account_id names :
  ∀ r (st : state W),
  ∃ r' st' more,
    foldM (delete_orphan s account_id) r names st = (Ret r', st') ∧
    success r' = success r ∧ failed r' = failed r ∧
    deleted r' = deleted r ++ more ∧
    Forall (λ entry, ∃ name, name ∈ names ∧ entry = name +:+ ":" +:+ account_id) more.
Proof.
  induction names as [|name names IH]; intros r st; simpl.
  - exists r, st, []. by rewrite app_nil_r.
  - destruct (delete_orphan_run s account_id r name st) as (st1 & E).
    unfold mbind, M_bind. rewrite E.
    match goal with |- context [foldM _ ?r1 _ _] =>
      destruct (IH r1 st1) as (r' & st' & more & E' & Hs & Hf & Hd & Hmore) end.
    assert (Forall (λ entry, ∃ name0, name0 ∈ name :: names
                             ∧ entry = name0 +:+ ":" +:+ account_id) more) as Hmore'.
    { eapply Forall_impl; [exact Hmore|]. intros entry (n & Hn & ->).
      exists n. split; [by right|done]. }
    destruct (deletion_completes _ _ _); simpl in *.
    + exists r', st', ((name +:+ ":" +:+ account_id) :: more).
      split; [exact E'|]. split; [done|]. split; [done|].
      split; [by rewrite Hd, <- app_assoc|].
      constructor; [|exact Hmore']. exists name. split; [by left|done].
    + by exists r', st', more.
Qed.

End Loops.

Section LoopProperties.
Context {W : Type} `{!Cloud W}.

(** One account of the clean-up: it never raises, leaves the success and
    failed lists alone, and records a snapshot for this account or none. *)
Lemma reconcile_account_results account_stacks r existing account_id (st : state W) :
  ∃ r' existing' st' more,
    reconcile_account account_stacks (r, existing) account_id st
      = (Ret (r', existing'), st') ∧
    success r' = success r ∧ failed r' = failed r ∧
    deleted r' = deleted r ++ more ∧
    dom existing' ⊆ dom existing ∪ {[account_id]}.
Proof.
  unfold reconcile_account, _assume_role, _get_existing_stacks.
  destruct st as [w t l]. unfold_monad. simpl.
  destruct (sts_assume_role _ _ w) as [[u|e] w1]; simpl.
  - destruct (cfn_list_stacks _ _ w1) as [[pages err] w2]. simpl.
    destruct err as [e|]; simpl;
      match goal with |- context [foldM ?f ?r0 ?names ?st2] =>
        destruct (delete_loop_results (Session account_id) account_id names r0 st2)
          as (r' & st' & more & E & Hs & Hf & Hd & _)
      end;
      rewrite E; eexists r', _, st', more; (split; [reflexivity|]);
      repeat split; try done; rewrite dom_insert_L, (comm_L (∪)); done.
  - eexists r, existing, _, []. split; [reflexivity|].
    rewrite app_nil_r. repeat split. apply union_subseteq_l.
Qed.

Lemma delete_loop_accounts account_stacks accounts :
  ∀ r existing (st : state W),
  ∃ r' existing' st' more,
    foldM (reconcile_account account_stacks) (r, existing) accounts st
      = (Ret (r', existing'), st') ∧
    success r' = success r ∧ failed r' = failed r ∧
    deleted r' = deleted r ++ more ∧
    dom existing' ⊆ dom existing ∪ list_to_set accounts.
Proof.
  induction accounts as [|account_id accounts IH]; intros r existing st; cbn [foldM].
  - exists r, existing, st, []. rewrite app_nil_r. repeat split. apply union_subseteq_l.
  - destruct (reconcile_account_results account_stacks r existing account_id st)
      as (r1 & existing1 & st1 & more1 & E1 & Hs1 & Hf1 & Hd1 & Hdom1).
    unfold mbind, M_bind. rewrite E1.
    destruct (IH r1 existing1 st1)
      as (r' & existing' & st' & more & E & Hs & Hf & Hd & Hdom).
    exists r', existing', st', (more1 ++ more). split; [exact E|].
    split; [congruence|]. split; [congruence|].
    split; [by rewrite Hd, Hd1, app_assoc|].
    intros account Hin. apply Hdom in Hin. rewrite list_to_set_cons.
    apply elem_of_union in Hin as [Hin|Hin].
    + apply Hdom1 in Hin. apply elem_of_union in Hin as [Hin|Hin].
      * by apply elem_of_union_l.
      * by apply elem_of_union_r, elem_of_union_l.
    + by apply elem_of_union_r, elem_of_union_r.
Qed.

Lemma deployed_app stack_name content existing accounts1 accounts2
    (w w1 w2 : W) t1 t2 tried1 tried2 :
  deployed stack_name content existing accounts1 w t1 tried1 w1 →
  deployed stack_name content existing accounts2 w1 t2 tried2 w2 →
  deployed stack_name content existing (accounts1 ++ accounts2) w (t1 ++ t2)
    (tried1 ++ tried2) w2.
Proof.
  intros H1 H2. induction H1; simpl; [done| |].
  - eapply deployed_refused; eauto.
  - eapply deployed_requested; eauto.
Qed.

(** One account of the deploy loop, with the calls it makes and what the
    cloud answers to them. *)
Lemma deploy_account_deployed template_file content stack_name existing r account_id
    (st : state W) :
  let entry := template_file +:+ ":" +:+ account_id in
  ∃ (ok : bool) st' t,
    deploy_account template_file content stack_name existing r account_id st =
      (Ret (if ok then Results (success r ++ [entry]) (failed r) (deleted r)
            else Results (success r) (failed r ++ [entry]) (deleted r)), st') ∧
    trace st' = trace st ++ t ∧
    deployed stack_name content existing [account_id] (world st) t [(account_id, ok)]
      (world st').
Proof.
  intros entry. destruct st as [w t l].
  destruct (sts_assume_role (workflow_role account_id).1 (workflow_role account_id).2 w)
    as [[[]|e] w1] eqn:Hrole.
  - destruct (request_answer account_id stack_name content
                (default ∅ (existing !! account_id)) w1) as [answer w2] eqn:Hreq.
    pose proof (deployed_requested stack_name content existing account_id [] w w1 answer w2
                  [] [] w2 Hrole Hreq (deployed_nil _ _ _ w2)) as Hd.
    exists (accepted answer).
    unfold deploy_account, deploy_attempt, _assume_role, _deploy_stack.
    unfold workflow_role in Hrole. unfold request_answer in Hreq.
    unfold deploy_request in Hd. unfold_monad. simpl in *. rewrite Hrole. simpl.
    destruct (decide (stack_name ∈ dom (default ∅ (existing !! account_id))))
      as [Hin|Hnin];
      simpl; rewrite Hreq; destruct answer as [[]|e]; simpl;
      eexists _, _; (split; [reflexivity|]); simpl;
      (split; [rewrite <- app_assoc; reflexivity|exact Hd]).
  - pose proof (deployed_refused stack_name content existing account_id [] w e w1
                  [] [] w1 Hrole (deployed_nil _ _ _ w1)) as Hd.
    exists false.
    unfold deploy_account, deploy_attempt, _assume_role.
    unfold workflow_role in Hrole. unfold_monad. simpl in *. rewrite Hrole. simpl.
    eexists _, _. split; [reflexivity|]. simpl. split; [reflexivity|exact Hd].
Qed.

Lemma deploy_loop_deployed template_file content stack_name existing accounts :
  ∀ r (st : state W),
  ∃ r' st' t tried,
    foldM (deploy_account template_file content stack_name existing) r accounts st
      = (Ret r', st') ∧
    trace st' = trace st ++ t ∧
    deployed stack_name content existing accounts (world st) t tried (world st') ∧
    tried.*1 = accounts ∧
    success r' = success r ++ reported template_file true tried ∧
    failed r' = failed r ++ reported template_file false tried ∧
    deleted r' = deleted r.
Proof.
  induction accounts as [|account_id accounts IH]; intros r st; cbn [foldM].
  - exists r, st, [], []. unfold reported. simpl. rewrite !app_nil_r.
    repeat split. constructor.
  - destruct (deploy_account_deployed template_file content stack_name existing r
                account_id st) as (ok & st1 & t1 & E & Et1 & Hd1).
    unfold mbind, M_bind. rewrite E.
    match goal with |- context [foldM _ ?r1 _ _] =>
      destruct (IH r1 st1) as (r' & st' & t & tried & E' & Et & Hd & Htried & Hs & Hf & Hdel)
    end.
    exists r', st', (t1 ++ t), ((account_id, ok) :: tried). split; [exact E'|].
    split; [by rewrite Et, Et1, app_assoc|].
    split; [exact (deployed_app _ _ _ [account_id] accounts _ _ _ _ _ _ _ Hd1 Hd)|].
    split; [by rewrite fmap_cons, Htried|].
    unfold reported in *. rewrite Hs, Hf, Hdel. destruct ok; cbn [success failed deleted].
    + rewrite (filter_cons_True (λ p : string * bool, p.2 = true)) by done.
      rewrite (filter_cons_False (λ p : string * bool, p.2 = false)) by done.
      rewrite fmap_cons. cbn [fst]. by rewrite <- app_assoc.
    + rewrite (filter_cons_False (λ p : string * bool, p.2 = true)) by done.
      rewrite (filter_cons_True (λ p : string * bool, p.2 = false)) by done.
      rewrite fmap_cons. cbn [fst]. by rewrite <- app_assoc.
Qed.

(** X3. For a manifest entry with a template and accounts whose template file
    is read, the deploy loop never raises: it tries every account of the
    entry in order, assuming its role and making the one request under the
    name of the template, and reports each account exactly once as
    [template_file:account], on the success list when the role was assumed
    and the cloud accepted the request and on the failed list otherwise, so a
    failure in one account does not stop the next. The deleted list is left
    alone. *)
Theorem deploy_entry_reports_each_account
    (extracted_dir template_file content : string) (accounts : list string)
    (account_existing_stacks : gmap string (gmap string string))
    (r : results) (st : state W) (w1 : W) :
  template_file ≠ "" → accounts ≠ [] →
  file_read (PosixPath.join extracted_dir template_file) (world st) = (Ret content, w1) →
  ∃ r' st' t tried,
    deploy_entry extracted_dir account_existing_stacks r
      (TemplateConfig (Some template_file) (Some accounts)) st = (Ret r', st') ∧
    trace st' = trace st ++ t ∧
    deployed (_generate_stack_name template_file) content account_existing_stacks
      accounts w1 t tried (world st') ∧
    tried.*1 = accounts ∧
    success r' = success r ++ reported template_file true tried ∧
    failed r' = failed r ++ reported template_file false tried ∧
    deleted r' = deleted r.
Proof.
  intros Hfile Haccounts Hread. unfold deploy_entry. simpl.
  rewrite decide_False by done. simpl.
  unfold read_template_or_missing, _read_template_file. destruct st as [w t l].
  destruct accounts as [|account_id accounts]; [done|].
  unfold try_except, mbind at 1 2, M_bind, mret, M_ret, local_op. simpl in *.
  rewrite Hread.
  apply (deploy_loop_deployed template_file content (_generate_stack_name template_file)
           account_existing_stacks (account_id :: accounts) r (State w1 t l)).
Qed.

(** X4. The orphan clean-up never raises, whatever fails in whichever
    account: it goes through every account, leaves the success and failed
    lists as the first pass built them, only appends to the deleted list, and
    keeps a snapshot for no account but those of the manifest. *)
Theorem delete_phase_never_raises (d : desired) (st : state W) :
  ∃ r account_existing_stacks st' more,
    delete_phase d st = (Ret (r, account_existing_stacks), st') ∧
    success r = success (d_results d) ∧
    failed r = failed (d_results d) ∧
    deleted r = deleted (d_results d) ++ more ∧
    dom account_existing_stacks ⊆ all_accounts d.
Proof.
  unfold delete_phase.
  destruct (delete_loop_accounts (account_stacks d) (set_iter (all_accounts d))
              (d_results d) ∅ st)
    as (r & existing & st' & more & E & Hs & Hf & Hd & Hdom).
  exists r, existing, st', more. repeat split; try done.
  intros account Hin. apply Hdom in Hin. rewrite dom_empty in Hin.
  apply elem_of_union in Hin as [Hin|Hin]; [by apply elem_of_empty in Hin|].
  apply elem_of_list_to_set in Hin. by apply set_iter_elem_of.
Qed.

(** X5. A stack is put on the deleted list, as [stack_name:account_id],
    exactly when its delete request returned and the wait for its deletion
    returned too. When the request raises nothing is awaited; in both
    failures the error is logged, the results are unchanged and nothing is
    raised. *)
Theorem deleted_only_when_settled
    (s : session) (account_id stack_name : string) (r : results) (st : state W) :
  let a := session_account s in
  let request := cfn_delete_stack a stack_name (world st) in
  ∃ st',
    delete_orphan s account_id r stack_name st =
      (Ret (if deletion_completes a stack_name (world st)
            then Results (success r) (failed r)
                   (deleted r ++ [stack_name +:+ ":" +:+ account_id])
            else r), st') ∧
    trace st' =
      trace st ++ DeleteStack a stack_name ::
        match request.1 with
        | Ret _ => [WaitStackDeleteComplete a stack_name]
        | Raise _ => []
        end ∧
    (deletion_completes a stack_name (world st) = false →
     ∃ e, last (log st') = Some (ERROR, LogDeleteFailed stack_name account_id e)).
Proof.
  intros a request. subst a request. destruct st as [w t l].
  unfold delete_orphan, _delete_stack, deletion_completes. unfold_monad. simpl.
  destruct (cfn_delete_stack _ _ w) as [[u|e] w1]; simpl.
  - destruct (cfn_wait_stack_delete_complete _ _ w1) as [[u'|e] w2]; simpl;
      eexists; (split; [reflexivity|]); simpl; rewrite <- app_assoc;
      (split; [done|]); [done|].
    intros _. exists e. by rewrite last_snoc.
  - eexists. split; [reflexivity|]. simpl. split; [done|].
    intros _. exists e. by rewrite last_snoc.
Qed.

End LoopProperties.

(** ** The handler and the roles *)

Section Handler.
Context {W : Type} `{!Cloud W}.

(** X6. [lambda_handler] never raises, whatever the event and whatever the
    cloud answers. It answers status 200 exactly when the event has a first
    record, the bundle of that record was fetched and unpacked, and
    [deploy_all] returned on the unpacked directory: the body then holds the
    three lists of that run, and nothing happens after the run. In every
    other case it answers status 500 with the text of the exception that
    ended the attempt, and logging that exception is the last thing it
    does. *)
Theorem lambda_handler_always_answers (ev : event) (st : state W) :
  ∃ resp st',
    lambda_handler ev st = (Ret resp, st') ∧
    (statusCode resp = 200 ∨ statusCode resp = 500) ∧
    match Records ev with
    | None =>
        resp = Response 500 (ErrorBody (str_exn (KeyError "Records"))) ∧
        st' = State (world st) (trace st)
                (log st ++ [(INFO, LogReceivedEvent ev);
                            (ERROR, LogError (KeyError "Records"))])
    | Some [] =>
        resp = Response 500 (ErrorBody (str_exn (IndexError "list index out of range"))) ∧
        st' = State (world st) (trace st)
                (log st ++ [(INFO, LogReceivedEvent ev);
                            (ERROR, LogError (IndexError "list index out of range"))])
    | Some (s3_event :: _) =>
        match _download_and_extract_zip (s3_bucket_name s3_event) (s3_object_key s3_event)
                (State (world st) (trace st)
                   (log st ++ [(INFO, LogReceivedEvent ev);
                               (INFO, LogProcessing (s3_bucket_name s3_event)
                                        (s3_object_key s3_event))])) with
        | (Raise e, st1) =>
            resp = Response 500 (ErrorBody (str_exn e)) ∧
            st' = State (world st1) (trace st1) (log st1 ++ [(ERROR, LogError e)])
        | (Ret extracted_dir, st1) =>
            match deploy_all extracted_dir st1 with
            | (Ret r, st2) =>
                resp = Response 200
                         (CompletedBody "Deployment completed"
                            (success r) (failed r) (deleted r)) ∧
                st' = st2
            | (Raise e, st2) =>
                resp = Response 500 (ErrorBody (str_exn e)) ∧
                st' = State (world st2) (trace st2) (log st2 ++ [(ERROR, LogError e)])
            end
        end
    end.
Proof.
  unfold lambda_handler, process_event, first_record, report_error.
  unfold try_except, mbind, M_bind, mret, M_ret, logger, raise. simpl.
  destruct (Records ev) as [[|s3_event rest]|]; simpl.
  - eexists _, _. split; [reflexivity|]. split; [by right|].
    by rewrite <- app_assoc.
  - rewrite <- app_assoc. simpl.
    destruct (_download_and_extract_zip _ _ _) as [[extracted_dir|e] st1]; simpl.
    + destruct (deploy_all extracted_dir st1) as [[r|e] st2]; simpl;
        eexists _, _; (split; [reflexivity|]); simpl; (split; [|done]); eauto.
    + eexists _, _. split; [reflexivity|]. split; [by right|done].
  - eexists _, _. split; [reflexivity|]. split; [by right|].
    by rewrite <- app_assoc.
Qed.

(** X7. When the download of the bundle raises, nothing is extracted and no
    role is assumed: the handler logs the error and answers status 500 with
    its text, and the download is the only call it made. *)
Theorem download_failure_answers_500
    (ev : event) (s3_event : s3_record) (rest : list s3_record) (st : state W)
    (temp_dir : string) (e : exn) (w1 w2 : W) :
  let bucket := s3_bucket_name s3_event in
  let key := s3_object_key s3_event in
  let zip_path := PosixPath.join temp_dir "rvm-configuration.zip" in
  Records ev = Some (s3_event :: rest) →
  tempfile_mkdtemp (world st) = (Ret temp_dir, w1) →
  s3_download_file bucket key zip_path w1 = (Raise e, w2) →
  lambda_handler ev st =
    (Ret (Response 500 (ErrorBody (str_exn e))),
     State w2 (trace st ++ [DownloadFile bucket key zip_path])
       (log st ++ [(INFO, LogReceivedEvent ev); (INFO, LogProcessing bucket key);
                   (INFO, LogDownloading bucket key zip_path); (ERROR, LogError e)])).
Proof.
  intros bucket key zip_path Hrec Hdir Hget. destruct st as [w t l]. simpl in *.
  unfold lambda_handler, process_event, first_record, _download_and_extract_zip,
    report_error. rewrite Hrec. unfold_monad. simpl.
  rewrite Hdir. simpl. fold bucket key zip_path. rewrite Hget. simpl.
  by rewrite <- !app_assoc.
Qed.

(** X8. When the role of an account cannot be assumed, nothing is called in
    that account. In the clean-up the account is skipped: no listing, no
    delete, no snapshot recorded, the results unchanged, the error logged. In
    the deploy loop the entry is put on the failed list as
    [template_file:account_id] and the error is logged. Neither raises. *)
Theorem assume_role_failure_skips_account
    (account_stacks : gmap string (gset string)) (r : results)
    (account_existing_stacks : gmap string (gmap string string))
    (template_file content stack_name account_id : string)
    (st : state W) (e : exn) (w1 : W) :
  let role_arn := "arn:aws:iam::" +:+ account_id +:+ ":role/" +:+ "RvmWorkflowRole" in
  let session_name := "rvm-deployment-" +:+ account_id in
  sts_assume_role role_arn session_name (world st) = (Raise e, w1) →
  reconcile_account account_stacks (r, account_existing_stacks) account_id st =
    (Ret (r, account_existing_stacks),
     State w1 (trace st ++ [AssumeRole role_arn session_name])
       (log st ++ [(ERROR, LogOrphanCheckFailed account_id e)])) ∧
  deploy_account template_file content stack_name account_existing_stacks r account_id st =
    (Ret (Results (success r) (failed r ++ [template_file +:+ ":" +:+ account_id])
            (deleted r)),
     State w1 (trace st ++ [AssumeRole role_arn session_name])
       (log st ++ [(ERROR, LogDeployFailed template_file account_id e)])).
Proof.
  intros role_arn session_name Hrole. destruct st as [w t l]. simpl in Hrole.
  split.
  - unfold reconcile_account, _assume_role. unfold_monad. simpl.
    fold role_arn session_name. by rewrite Hrole.
  - unfold deploy_account, deploy_attempt, _assume_role. unfold_monad. simpl.
    fold role_arn session_name. by rewrite Hrole.
Qed.

End Handler.

(** ** The first pass over the manifest *)

Lemma expect_account_eq (stack_name : string) (d : desired) (account_id : string) :
  expect_account stack_name d account_id =
  Desired (d_results d)
    ({[stack_name +:+ "-" +:+ account_id]} ∪ expected_stacks d)
    (all_accounts d)
    (<[account_id := {[stack_name +:+ "-" +:+ account_id]}
                      ∪ default ∅ (account_stacks d !! account_id)]> (account_stacks d)).
Proof.
  unfold expect_account. f_equal.
  destruct (decide (account_id ∈ dom (account_stacks d))) as [Hin|Hnin]; [done|].
  apply not_elem_of_dom in Hnin.
  by rewrite lookup_insert_eq, insert_insert_eq, Hnin.
Qed.

Lemma expects_expect_account stack_name d account_id a name :
  expects (expect_account stack_name d account_id) a name ↔
  expects d a name ∨ (a = account_id ∧ name = stack_name +:+ "-" +:+ account_id).
Proof.
  rewrite expect_account_eq. unfold expects. simpl.
  destruct (decide (a = account_id)) as [->|Hne].
  - rewrite lookup_insert_eq. split.
    + intros (names & [= <-] & Hin). apply elem_of_union in Hin as [Hin|Hin].
      * right. split; [done|]. by apply elem_of_singleton in Hin.
      * left. destruct (account_stacks d !! account_id) as [names|]; [eauto|].
        by apply elem_of_empty in Hin.
    + intros [(names & Hl & Hin)|[_ ->]]; eexists; (split; [reflexivity|]).
      * apply elem_of_union_r. by rewrite Hl.
      * by apply elem_of_union_l, elem_of_singleton.
  - rewrite lookup_insert_ne by done. split; [by left|].
    intros [H|[? _]]; [done|congruence].
Qed.

(** The loop of lines 187-193 over the accounts of one entry. *)
Lemma expect_accounts_fold stack_name accounts : ∀ d,
  let d' := foldl (expect_account stack_name) d accounts in
  d_results d' = d_results d ∧
  all_accounts d' = all_accounts d ∧
  dom (account_stacks d') = dom (account_stacks d) ∪ list_to_set accounts ∧
  (∀ name, name ∈ expected_stacks d' ↔
           name ∈ expected_stacks d
           ∨ ∃ a, a ∈ accounts ∧ name = stack_name +:+ "-" +:+ a) ∧
  (∀ a name, expects d' a name ↔
             expects d a name ∨ (a ∈ accounts ∧ name = stack_name +:+ "-" +:+ a)).
Proof.
  induction accounts as [|account_id accounts IH]; intros d; cbn [foldl].
  - split; [done|]. split; [done|].
    split; [by rewrite list_to_set_nil, (right_id_L ∅ (∪))|].
    split; [intros name|intros a name]; split; try tauto.
    + intros [H|(a & Ha & _)]; [done|]. by apply elem_of_nil in Ha.
    + intros [H|[Ha _]]; [done|]. by apply elem_of_nil in Ha.
  - destruct (IH (expect_account stack_name d account_id))
      as (Hr & Hall & Hdom & Hexp & Hacc).
    split; [by rewrite Hr, expect_account_eq|].
    split; [by rewrite Hall, expect_account_eq|].
    split.
    { rewrite Hdom, expect_account_eq. cbn [account_stacks].
      by rewrite dom_insert_L, list_to_set_cons, (comm_L (∪) {[account_id]}), (assoc_L (∪)). }
    split.
    + intros name. rewrite Hexp, expect_account_eq. cbn [expected_stacks].
      rewrite elem_of_union, elem_of_singleton. split.
      * intros [[->|H]|(a & Ha & ->)]; [right|by left|right].
        -- exists account_id. split; [by left|done].
        -- exists a. split; [by right|done].
      * intros [H|(a & Ha & ->)]; [by left; right|].
        apply elem_of_cons in Ha as [->|Ha]; [by left; left|].
        right. by exists a.
    + intros a name. rewrite Hacc, expects_expect_account. split.
      * intros [[H|[-> ->]]|[Ha ->]]; [by left|right|right].
        -- split; [by left|done].
        -- split; [by right|done].
      * intros [H|[Ha ->]]; [by left; left|].
        apply elem_of_cons in Ha as [->|Ha]; [by left; right|by right].
Qed.

Lemma manifest_accounts_elem (templates : list template_config) (a : string) :
  a ∈ manifest_accounts templates ↔
  ∃ cfg, cfg ∈ templates ∧ a ∈ default [] (cfg_accounts cfg).
Proof.
  unfold manifest_accounts. rewrite elem_of_union_list. split.
  - intros (X & HX & Ha). apply list_elem_of_fmap in HX as (cfg & -> & Hcfg).
    exists cfg. split; [done|]. by apply elem_of_list_to_set in Ha.
  - intros (cfg & Hcfg & Ha). eexists. split.
    + apply list_elem_of_fmap. by exists cfg.
    + by apply elem_of_list_to_set.
Qed.

Section FirstPass.
Context {W : Type} `{!Cloud W}.

(** What one entry can make of what the first pass has built: nothing (the
    entry is skipped), the accounts put on the failed list (the template is
    missing), or the names of the entry expected in its accounts. *)
Lemma collect_entry_returns dir d cfg d' :
  returns (collect_entry dir d cfg) d' →
  d' = d
  ∨ ∃ f accounts,
      cfg_template_file cfg = Some f ∧ cfg_accounts cfg = Some accounts ∧
      (d' = Desired (Results (success (d_results d)) (failed (d_results d) ++ accounts)
                       (deleted (d_results d)))
              (expected_stacks d) (all_accounts d) (account_stacks d)
       ∨ d' = foldl (expect_account (_generate_stack_name f))
                (Desired (d_results d) (expected_stacks d)
                   (all_accounts d ∪ list_to_set accounts) (account_stacks d))
                accounts).
Proof.
  intros (st & st' & E). unfold collect_entry in E.
  destruct cfg as [[f|] accs]; simpl in E.
  2: { apply bind_Ret_inv in E as (? & ? & _ & E). unfold mret, M_ret in E.
       left. by simplify_eq. }
  destruct (decide (f = "")) as [->|Hf]; simpl in E.
  { apply bind_Ret_inv in E as (? & ? & _ & E). unfold mret, M_ret in E.
    left. by simplify_eq. }
  destruct accs as [[|account_id accounts]|]; simpl in E.
  1, 3: apply bind_Ret_inv in E as (? & ? & _ & E); unfold mret, M_ret in E;
        left; by simplify_eq.
  apply bind_Ret_inv in E as (content & st1 & _ & E).
  right. exists f, (account_id :: accounts). split; [done|]. split; [done|].
  destruct content as [content|].
  - right. unfold mret, M_ret in E. by simplify_eq.
  - left. apply bind_Ret_inv in E as (? & ? & _ & E). unfold mret, M_ret in E.
    by simplify_eq.
Qed.

Lemma first_pass_inv_mono seen cfg d :
  first_pass_inv seen d → first_pass_inv (seen ++ [cfg]) d.
Proof.
  intros (Hdom & Hexp & Hfrom & Hall & Hs & Hd). repeat split; try done.
  - by apply Hexp.
  - by apply Hexp.
  - intros a name (cfg' & f & Hin & Hf & Ha & Hn)%Hfrom.
    exists cfg', f. repeat split; try done. apply elem_of_app. by left.
  - intros a (cfg' & Hin & Ha)%Hall%manifest_accounts_elem.
    apply manifest_accounts_elem. exists cfg'. split; [|done]. apply elem_of_app. by left.
Qed.

Lemma collect_entry_inv dir seen d cfg d' :
  first_pass_inv seen d → returns (collect_entry dir d cfg) d' →
  first_pass_inv (seen ++ [cfg]) d'.
Proof.
  intros Hinv [->|(f & accounts & Hf & Hacc & [->| ->])]%collect_entry_returns.
  - by apply first_pass_inv_mono.
  - apply (first_pass_inv_mono _ cfg) in Hinv.
    destruct Hinv as (Hdom & Hexp & Hfrom & Hall & Hs & Hd).
    unfold first_pass_inv. simpl. by repeat (split; [done|]).
  - destruct Hinv as (Hdom & Hexp & Hfrom & Hall & Hs & Hd).
    match goal with |- first_pass_inv _ (foldl _ ?d1 _) =>
      destruct (expect_accounts_fold (_generate_stack_name f) accounts d1)
        as (Er & Eall & Edom & Eexp & Eacc) end.
    simpl in *. split; [by rewrite Edom, Eall, Hdom|]. split; [|split; [|split]].
    + intros name. rewrite Eexp, Hexp. split.
      * intros [[a Ha]|(a & Ha & ->)]; exists a; apply Eacc; [by left|by right].
      * intros [a [Ha|[Ha ->]]%Eacc]; [left; by exists a|right; by exists a].
    + intros a name [(cfg' & f' & Hin & Hf' & Ha & Hn)%Hfrom|[Ha ->]]%Eacc.
      * exists cfg', f'. repeat split; try done. apply elem_of_app. by left.
      * exists cfg, f. split; [apply elem_of_app; right; by left|].
        split; [done|]. by rewrite Hacc.
    + rewrite Eall. intros a [Ha|Ha]%elem_of_union; apply manifest_accounts_elem.
      * apply Hall, manifest_accounts_elem in Ha as (cfg' & Hin & Ha).
        exists cfg'. split; [|done]. apply elem_of_app. by left.
      * exists cfg. split; [apply elem_of_app; right; by left|].
        rewrite Hacc. by apply elem_of_list_to_set in Ha.
    + by rewrite Er.
Qed.

Lemma collect_entries_inv dir templates : ∀ seen d d',
  first_pass_inv seen d → returns (foldM (collect_entry dir) d templates) d' →
  first_pass_inv (seen ++ templates) d'.
Proof.
  induction templates as [|cfg templates IH]; intros seen d d' Hinv Hret; simpl in Hret.
  - destruct Hret as (st & st' & E). unfold mret, M_ret in E.
    rewrite app_nil_r. by simplify_eq.
  - apply returns_bind in Hret as (d1 & H1 & Hrest).
    rewrite (cons_middle cfg), app_assoc.
    eapply IH; [|exact Hrest]. by eapply collect_entry_inv.
Qed.

Lemma collect_desired_inv dir templates d :
  returns (collect_desired dir templates) d → first_pass_inv templates d.
Proof.
  intros Hret.
  apply (collect_entries_inv dir templates [] (Desired empty_results ∅ ∅ ∅) d);
    [|exact Hret].
  unfold first_pass_inv. simpl. split; [by rewrite dom_empty_L|]. split.
  { intros name. split; [intros Hin; by apply elem_of_empty in Hin|].
    intros (a & names & Hl & _). simpl in Hl. by rewrite lookup_empty in Hl. }
  split.
  { intros a name (names & Hl & _). simpl in Hl. by rewrite lookup_empty in Hl. }
  split; [|done]. intros a Ha. by apply elem_of_empty in Ha.
Qed.

End FirstPass.

Section Accounts.
Context {W : Type} `{!Cloud W}.

Lemma reconcile_account_in_account account_stacks acc account_id :
  emits (in_account account_id) (reconcile_account account_stacks acc account_id).
Proof.
  unfold reconcile_account. destruct acc as [r existing].
  apply emits_try_except; [|intros e; solve_emits fail].
  apply emits_bind_returns; [unfold _assume_role; solve_emits ltac:(by simpl)|].
  intros s ->%returns_assume_role.
  unfold _get_existing_stacks, delete_orphan, _delete_stack.
  solve_emits ltac:(reflexivity).
Qed.

Lemma deploy_account_in_account f content name existing r account_id :
  emits (in_account account_id) (deploy_account f content name existing r account_id).
Proof.
  unfold deploy_account, deploy_attempt.
  apply emits_try_except; [|intros e; solve_emits fail].
  apply emits_bind_returns; [unfold _assume_role; solve_emits ltac:(by simpl)|].
  intros s ->%returns_assume_role.
  unfold _deploy_stack. solve_emits ltac:(reflexivity).
Qed.

Lemma in_account_within (accounts : gset string) (account : string) (c : call) :
  account ∈ accounts → in_account account c → within_accounts accounts c.
Proof.
  intros Hin Hc. destruct c; try done; by exists account.
Qed.

Lemma deploy_entry_within dir existing r cfg :
  emits (within_accounts (list_to_set (default [] (cfg_accounts cfg))))
    (deploy_entry dir existing r cfg).
Proof.
  unfold deploy_entry. destruct (falsy_str (cfg_template_file cfg)); [apply emits_ret|].
  destruct (default [] (cfg_accounts cfg)) as [|a accounts] eqn:Hacc; [apply emits_ret|].
  apply emits_bind; [apply no_calls_any, read_template_or_missing_quiet|].
  intros [content|]; [|apply emits_ret].
  apply emits_foldM. intros r0 account Hin.
  eapply emits_weaken; [|apply deploy_account_in_account].
  intros c. apply in_account_within. by apply elem_of_list_to_set.
Qed.

(** The three passes of a run over the entries [templates]. *)
Lemma passes_within dir templates :
  emits (within_accounts (manifest_accounts templates))
    (d ← collect_desired dir templates;
     '(r, account_existing_stacks) ← delete_phase d;
     r' ← deploy_phase dir templates account_existing_stacks r;
     log_summary r';;
     mret r').
Proof.
  apply emits_bind_returns; [apply no_calls_any, collect_desired_quiet|].
  intros d (_ & _ & _ & Hall & _)%collect_desired_inv.
  apply emits_bind.
  { unfold delete_phase. apply emits_foldM. intros acc account Hin%set_iter_elem_of.
    eapply emits_weaken; [|apply reconcile_account_in_account].
    intros c. apply in_account_within. by apply Hall. }
  intros [r existing]. apply emits_bind.
  { unfold deploy_phase. apply emits_foldM. intros r0 cfg Hcfg.
    eapply emits_weaken; [|apply deploy_entry_within].
    assert (∀ a, a ∈ (list_to_set (default [] (cfg_accounts cfg)) : gset string) →
                 a ∈ manifest_accounts templates) as Hsub.
    { intros a Ha%elem_of_list_to_set. apply manifest_accounts_elem. by exists cfg. }
    intros [] Hc; try done; destruct Hc as (a & Ha & Hc); exists a; split; auto. }
  intros r'. apply emits_bind; [apply no_calls_any, log_summary_quiet|]. intros _.
  apply emits_ret.
Qed.

(** X9. A run reaches no account but those the manifest names: every
    listing, delete, wait, create and update is made in an account of some
    entry of the manifest it read, and every role it assumes is the role
    [RvmWorkflowRole] of such an account, under the session name
    [rvm-deployment-] followed by the account id, whatever the cloud
    answers. *)
Theorem run_stays_within_manifest_accounts
    (extracted_dir : string) (templates : list template_config) (st : state W) (w' : W) :
  json_file_load (PosixPath.join extracted_dir "manifest.json") (world st)
    = (Ret (Manifest (Some templates)), w') →
  ∃ t, trace (deploy_all extracted_dir st).2 = trace st ++ t ∧
       Forall (within_accounts (manifest_accounts templates)) t.
Proof.
  intros Hload. destruct st as [w t l]. simpl in Hload.
  destruct (emits_run _ _ (State w' t l) (passes_within extracted_dir templates))
    as (t' & l' & Ht & Et & _).
  exists t'. split; [|done]. cbn [trace] in *. rewrite <- Et. f_equal. f_equal.
  unfold deploy_all, _read_manifest. unfold mbind, M_bind, local_op, mret, M_ret.
  simpl. by rewrite Hload.
Qed.

(** X10. What the first pass builds when it returns: every account it will
    visit has a set of expected names and no other account has one; the
    expected names overall are those of the accounts together; each name
    expected in an account is the name of a template of an entry that lists
    the account, with the account id appended; the accounts are accounts of
    the manifest; and the success and deleted lists are still empty. *)
Theorem first_pass_bookkeeping
    (extracted_dir : string) (templates : list template_config)
    (st st' : state W) (d : desired) :
  collect_desired extracted_dir templates st = (Ret d, st') →
  dom (account_stacks d) = all_accounts d ∧
  (∀ name, name ∈ expected_stacks d ↔ ∃ a, expects d a name) ∧
  (∀ a name, expects d a name →
     ∃ cfg f, cfg ∈ templates ∧ cfg_template_file cfg = Some f ∧
              a ∈ default [] (cfg_accounts cfg) ∧ name = expected_stack_name f a) ∧
  all_accounts d ⊆ manifest_accounts templates ∧
  success (d_results d) = [] ∧ deleted (d_results d) = [] ∧
  trace st' = trace st.
Proof.
  intros E.
  assert (returns (collect_desired extracted_dir templates) d) as Hret by by exists st, st'.
  destruct (collect_desired_inv _ _ _ Hret) as (Hdom & Hexp & Hfrom & Hall & Hs & Hd).
  repeat (split; [done|]).
  destruct (emits_run _ _ st (collect_desired_quiet extracted_dir templates))
    as (t' & l' & Ht & Et & _).
  rewrite E in Et. simpl in Et. rewrite Et.
  destruct t' as [|c t']; [by rewrite app_nil_r|]. by inversion Ht.
Qed.

End Accounts.

(** ** Entries that are skipped, templates that cannot be read *)

Section Entries.
Context {W : Type} `{!Cloud W}.

Lemma collect_entry_skipped dir d cfg (st : state W) :
  skipped_entry cfg = true →
  collect_entry dir d cfg st =
    (Ret d, State (world st) (trace st) (log st ++ [skip_warning cfg])).
Proof.
  unfold skipped_entry, skip_warning, collect_entry. intros Hskip.
  destruct (falsy_str (cfg_template_file cfg)); [done|]. simpl in Hskip.
  by destruct (default [] (cfg_accounts cfg)).
Qed.

Lemma deploy_entry_skipped dir existing r cfg (st : state W) :
  skipped_entry cfg = true → deploy_entry dir existing r cfg st = (Ret r, st).
Proof.
  unfold skipped_entry, deploy_entry. intros Hskip.
  destruct (falsy_str (cfg_template_file cfg)); [done|]. simpl in Hskip.
  by destruct (default [] (cfg_accounts cfg)).
Qed.

Lemma collect_entries_skipped dir templates : ∀ d (st : state W),
  forallb skipped_entry templates = true →
  foldM (collect_entry dir) d templates st =
    (Ret d, State (world st) (trace st) (log st ++ (skip_warning <$> templates))).
Proof.
  induction templates as [|cfg templates IH]; intros d [w t l] Hall; simpl in *.
  - unfold mret, M_ret. by rewrite app_nil_r.
  - apply andb_prop in Hall as [Hcfg Hall].
    unfold mbind, M_bind. rewrite collect_entry_skipped by done.
    rewrite IH by done. simpl. by rewrite <- app_assoc.
Qed.

Lemma deploy_entries_skipped dir existing templates : ∀ r (st : state W),
  forallb skipped_entry templates = true →
  foldM (deploy_entry dir existing) r templates st = (Ret r, st).
Proof.
  induction templates as [|cfg templates IH]; intros r st Hall; simpl in *; [done|].
  apply andb_prop in Hall as [Hcfg Hall].
  unfold mbind, M_bind. rewrite deploy_entry_skipped by done. by apply IH.
Qed.

(** X11. A manifest none of whose entries has both a template file and
    accounts, the empty list of entries included, makes a run that touches
    nothing: no role is assumed, no stack is listed, the world stays as the
    reading of the manifest left it, and the result is empty. The log holds
    one warning for each entry and the summary line with three zeros. *)
Theorem run_of_skipped_entries_is_empty
    (extracted_dir : string) (templates : list template_config) (st : state W) (w' : W) :
  json_file_load (PosixPath.join extracted_dir "manifest.json") (world st)
    = (Ret (Manifest (Some templates)), w') →
  forallb skipped_entry templates = true →
  deploy_all extracted_dir st =
    (Ret empty_results,
     State w' (trace st)
       (log st ++ (skip_warning <$> templates) ++ [(INFO, LogDeploymentComplete 0 0 0)])).
Proof.
  intros Hload Hall. destruct st as [w t l]. simpl in Hload.
  unfold deploy_all, _read_manifest, collect_desired, delete_phase, deploy_phase.
  unfold log_summary. unfold_monad. simpl. rewrite Hload. simpl.
  rewrite collect_entries_skipped by done. simpl.
  rewrite set_iter_empty. simpl.
  rewrite deploy_entries_skipped by done. simpl. by rewrite <- app_assoc.
Qed.

End Entries.

Section Unreadable.
Context {W : Type} `{!Cloud W}.

(** X12. Only a missing template file is forgiven. When opening the template
    of an entry raises anything else (a permission error, a directory in its
    place), the entry raises it in both passes, nothing is logged for it, and
    a run whose first entry is such an entry raises the exception out of
    [deploy_all] before any call is made, the entries after it never
    looked at. *)
Theorem unreadable_template_aborts_run
    (extracted_dir template_file : string) (account_id : string) (accounts : list string)
    (d : desired) (account_existing_stacks : gmap string (gmap string string))
    (r : results) (st : state W) (e : exn) (w1 : W) :
  let cfg := TemplateConfig (Some template_file) (Some (account_id :: accounts)) in
  template_file ≠ "" →
  other_than_not_found e = true →
  file_read (PosixPath.join extracted_dir template_file) (world st) = (Raise e, w1) →
  collect_entry extracted_dir d cfg st = (Raise e, State w1 (trace st) (log st)) ∧
  deploy_entry extracted_dir account_existing_stacks r cfg st
    = (Raise e, State w1 (trace st) (log st)) ∧
  ∀ (rest : list template_config) (st0 : state W),
    json_file_load (PosixPath.join extracted_dir "manifest.json") (world st0)
      = (Ret (Manifest (Some (cfg :: rest))), world st) →
    deploy_all extracted_dir st0 = (Raise e, State w1 (trace st0) (log st0)).
Proof.
  intros cfg Hfile He Hread. destruct st as [w t0 l0]. cbn [world trace log] in *.
  assert (∀ t l, read_template_or_missing (PosixPath.join extracted_dir template_file)
                   (State w t l) = (Raise e, State w1 t l)) as Hmissing.
  { intros t l. unfold read_template_or_missing, _read_template_file.
    unfold_monad. simpl. rewrite Hread. by destruct e. }
  assert (∀ d0 t l, collect_entry extracted_dir d0 cfg (State w t l)
                    = (Raise e, State w1 t l)) as Hcollect.
  { intros d0 t l. unfold collect_entry. simpl. rewrite decide_False by done. simpl.
    unfold mbind, M_bind. by rewrite Hmissing. }
  split; [apply Hcollect|]. split.
  - unfold deploy_entry. simpl. rewrite decide_False by done.
    simpl. unfold mbind, M_bind. by rewrite Hmissing.
  - intros rest [w0 t l] Hload. simpl in Hload.
    unfold deploy_all, _read_manifest, collect_desired. unfold mbind, M_bind, local_op.
    simpl. rewrite Hload. simpl. unfold mbind, M_bind. by rewrite Hcollect.
Qed.

End Unreadable.

(** ** The name of a stack from the path of its template *)

Lemma rfind_from_absent (c : ascii) (s : string) : ∀ i last,
  PyStr.mem c s = false → PyStr.rfind_from c s i last = last.
Proof.
  induction s as [|a s IH]; intros i last Hs; simpl in *; [done|].
  destruct (decide (a = c)); [done|]. by apply IH.
Qed.

Lemma rfind_from_last (c : ascii) (s1 s2 : string) : ∀ i last,
  PyStr.mem c s2 = false →
  PyStr.rfind_from c (s1 +:+ String c s2) i last = i + Z.of_nat (String.length s1).
Proof.
  induction s1 as [|a s1 IH]; intros i last Hs2.
  - rewrite append_nil_l. simpl. rewrite decide_True by done.
    rewrite rfind_from_absent by done. lia.
  - rewrite append_cons. simpl. rewrite IH by done. lia.
Qed.

Lemma mem_append (c : ascii) (s1 s2 : string) :
  PyStr.mem c (s1 +:+ s2) = PyStr.mem c s1 || PyStr.mem c s2.
Proof.
  induction s1 as [|a s1 IH]; [done|]. rewrite append_cons. simpl.
  by destruct (decide (a = c)).
Qed.

Lemma drop_append (s1 s2 : string) : PyStr.drop (String.length s1) (s1 +:+ s2) = s2.
Proof. induction s1 as [|a s1 IH]; [by destruct s2|]. by rewrite append_cons. Qed.

Lemma take_append (s1 s2 : string) : PyStr.take (String.length s1) (s1 +:+ s2) = s1.
Proof.
  induction s1 as [|a s1 IH]; [by destruct s2|]. rewrite append_cons. simpl.
  by rewrite IH.
Qed.

Lemma drop_after (c : ascii) (s1 s2 : string) :
  PyStr.drop (S (String.length s1)) (s1 +:+ String c s2) = s2.
Proof.
  induction s1 as [|a s1 IH]; [by destruct s2|]. rewrite append_cons. exact IH.
Qed.

(** [os.path.basename] drops everything up to the last separator. *)
Lemma basename_of_path (dir file : string) :
  PyStr.mem "/" file = false →
  PosixPath.basename (dir +:+ "/" +:+ file) = file ∧ PosixPath.basename file = file.
Proof.
  intros Hfile. unfold PosixPath.basename, PyStr.rfind, PyStr.slice_from. split.
  - unfold PosixPath.sep. change ("/" +:+ file) with (String "/" file).
    rewrite rfind_from_last by done.
    replace (Z.to_nat (0 + Z.of_nat (String.length dir) + 1))
      with (S (String.length dir)) by lia.
    apply drop_after.
  - rewrite rfind_from_absent by done. done.
Qed.

(** [os.path.splitext] cuts at the last dot, when a character other than a
    dot comes before it. *)
Lemma splitext_of_file (name ext : string) :
  PyStr.mem "/" name = false → PyStr.mem "/" ext = false →
  PyStr.mem "." ext = false → PyStr.has_other "." name = true →
  PosixPath.splitext (name +:+ "." +:+ ext) = (name, "." +:+ ext).
Proof.
  intros Hname Hext Hdot Hother. unfold PosixPath.splitext, PyStr.rfind.
  unfold PosixPath.sep, PosixPath.extsep.
  change ("." +:+ ext) with (String "." ext).
  rewrite (rfind_from_absent "/").
  2: { rewrite mem_append, Hname. simpl. exact Hext. }
  rewrite rfind_from_last by done.
  rewrite decide_True by lia.
  unfold PyStr.slice, PyStr.slice_to, PyStr.slice_from.
  replace (Z.to_nat (-1 + 1)) with 0%nat by lia.
  replace (Z.to_nat (0 + Z.of_nat (String.length name) - (-1 + 1)))
    with (String.length name) by lia.
  replace (Z.to_nat (0 + Z.of_nat (String.length name)))
    with (String.length name) by lia.
  cbn [PyStr.drop]. by rewrite take_append, drop_append, Hother.
Qed.

(** X13. The stack name keeps the file name of the template and nothing
    else: for a template [dir/name.ext], and for [name.ext] in no directory,
    whose extension holds no dot and whose name holds a character other than
    a dot, it is [STACK_PREFIX-name], whatever the directory and the
    extension. *)
Theorem stack_name_of_template_path (dir name ext : string) :
  PyStr.mem "/" name = false → PyStr.mem "/" ext = false →
  PyStr.mem "." ext = false → PyStr.has_other "." name = true →
  _generate_stack_name (dir +:+ "/" +:+ name +:+ "." +:+ ext) = STACK_PREFIX +:+ "-" +:+ name ∧
  _generate_stack_name (name +:+ "." +:+ ext) = STACK_PREFIX +:+ "-" +:+ name.
Proof.
  intros Hname Hext Hdot Hother.
  assert (PyStr.mem "/" (name +:+ "." +:+ ext) = false) as Hfile.
  { rewrite !mem_append, Hname, Hext. done. }
  destruct (basename_of_path dir (name +:+ "." +:+ ext) Hfile) as [Hbase Hbase'].
  unfold _generate_stack_name.
  by rewrite Hbase, Hbase', splitext_of_file.
Qed.

(** ** What can make a run raise *)

Section NeverRaises.
Context {W : Type} `{!Cloud W}.

Lemma never_raises_ret {A} (a : A) : never_raises (mret a : M W A).
Proof. intros st. by exists a, st. Qed.

Lemma never_raises_logger lv msg : never_raises (logger lv msg : M W unit).
Proof. intros st. by eexists _, _. Qed.

Lemma never_raises_bind {A B} (m : M W A) (f : A → M W B) :
  never_raises m → (∀ a, never_raises (f a)) → never_raises (m ≫= f).
Proof.
  intros Hm Hf st. destruct (Hm st) as (a & st1 & E1).
  destruct (Hf a st1) as (b & st2 & E2). exists b, st2.
  unfold mbind, M_bind. by rewrite E1.
Qed.

Lemma never_raises_foldM {A B} (f : B → A → M W B) xs :
  (∀ acc x, never_raises (f acc x)) → ∀ acc, never_raises (foldM f acc xs).
Proof.
  intros Hf. induction xs as [|x xs IH]; intros acc; simpl.
  - apply never_raises_ret.
  - apply never_raises_bind; [apply Hf|apply IH].
Qed.

Lemma read_template_or_missing_never_raises path :
  reads_fail_as_not_found W → never_raises (read_template_or_missing path).
Proof.
  intros Hreads [w t l]. specialize (Hreads path w).
  unfold read_template_or_missing, _read_template_file. unfold_monad. simpl.
  destruct (file_read path w) as [[content|e] w1]; simpl in *; [by eexists _, _|].
  destruct e; try discriminate. by eexists _, _.
Qed.

Lemma collect_entry_never_raises dir d cfg :
  reads_fail_as_not_found W → never_raises (collect_entry dir d cfg).
Proof.
  intros Hreads. unfold collect_entry.
  destruct (falsy_str (cfg_template_file cfg)).
  { apply never_raises_bind; [apply never_raises_logger|intros; apply never_raises_ret]. }
  destruct (default [] (cfg_accounts cfg)).
  { apply never_raises_bind; [apply never_raises_logger|intros; apply never_raises_ret]. }
  apply never_raises_bind; [by apply read_template_or_missing_never_raises|].
  intros [content|]; [apply never_raises_ret|].
  apply never_raises_bind; [apply never_raises_logger|intros; apply never_raises_ret].
Qed.

Lemma reconcile_account_never_raises account_stacks acc account_id :
  never_raises (reconcile_account account_stacks acc account_id).
Proof.
  intros st. destruct acc as [r existing].
  destruct (reconcile_account_results account_stacks r existing account_id st)
    as (r' & existing' & st' & more & E & _). by exists (r', existing'), st'.
Qed.

Lemma deploy_entry_never_raises dir existing r cfg :
  reads_fail_as_not_found W → never_raises (deploy_entry dir existing r cfg).
Proof.
  intros Hreads. unfold deploy_entry.
  destruct (falsy_str (cfg_template_file cfg)); [apply never_raises_ret|].
  destruct (default [] (cfg_accounts cfg)); [apply never_raises_ret|].
  apply never_raises_bind; [by apply read_template_or_missing_never_raises|].
  intros [content|]; [|apply never_raises_ret].
  apply never_raises_foldM. intros r0 account st.
  destruct (deploy_account_run (default "" (cfg_template_file cfg)) content
              (_generate_stack_name (default "" (cfg_template_file cfg)))
              existing r0 account st) as (ok & st' & E).
  by eexists _, _.
Qed.

Lemma log_summary_never_raises r : never_raises (log_summary r : M W unit).
Proof.
  unfold log_summary.
  apply never_raises_bind; [apply never_raises_logger|intros _].
  apply never_raises_bind; [|intros _].
  { destruct (success r); [apply never_raises_ret|apply never_raises_logger]. }
  apply never_raises_bind; [|intros _].
  { destruct (failed r); [apply never_raises_ret|apply never_raises_logger]. }
  destruct (deleted r); [apply never_raises_ret|apply never_raises_logger].
Qed.

(** X14. Once the manifest is read, no failure of STS or CloudFormation makes
    a run raise: on a host where opening a template fails only because the
    file is not there, [deploy_all] returns a result whatever the cloud
    answers to the calls of the run. *)
Theorem run_survives_cloud_failures
    (extracted_dir : string) (m : manifest) (st : state W) (w' : W) :
  reads_fail_as_not_found W →
  json_file_load (PosixPath.join extracted_dir "manifest.json") (world st) = (Ret m, w') →
  ∃ r st', deploy_all extracted_dir st = (Ret r, st').
Proof.
  intros Hreads Hload. destruct st as [w t l]. simpl in Hload.
  assert (never_raises
            (match manifest_templates m with
             | Some templates =>
                 d ← collect_desired extracted_dir templates;
                 '(r, account_existing_stacks) ← delete_phase d;
                 r' ← deploy_phase extracted_dir templates account_existing_stacks r;
                 log_summary r';;
                 mret r'
             | None => logger WARNING LogNoTemplatesSection;; mret empty_results
             end : M W results)) as Hrest.
  { destruct (manifest_templates m) as [templates|].
    - apply never_raises_bind.
      { apply never_raises_foldM. intros. by apply collect_entry_never_raises. }
      intros d. apply never_raises_bind.
      { apply never_raises_foldM. intros. apply reconcile_account_never_raises. }
      intros [r existing]. apply never_raises_bind.
      { apply never_raises_foldM. intros. by apply deploy_entry_never_raises. }
      intros r'. apply never_raises_bind; [apply log_summary_never_raises|].
      intros. apply never_raises_ret.
    - apply never_raises_bind; [apply never_raises_logger|intros; apply never_raises_ret]. }
  destruct (Hrest (State w' t l)) as (r & st' & E). exists r, st'. rewrite <- E.
  unfold deploy_all, _read_manifest. unfold mbind, M_bind, local_op, mret, M_ret.
  simpl. rewrite Hload. simpl. by destruct (manifest_templates m).
Qed.

End NeverRaises.

(** ** The bundle, and the roles of the clean-up *)

Section Bundle.
Context {W : Type} `{!Cloud W}.

(** X15. When the bundle is fetched and unpacked, the run reads the manifest
    of the directory the bundle was unpacked in: the handler downloads the
    object to [rvm-configuration.zip] in a fresh temporary directory,
    extracts it into that directory, runs [deploy_all] on it, and answers
    200 with its lists when it returns and 500 with the text of its
    exception when it raises. *)
Theorem handler_runs_on_extracted_bundle
    (ev : event) (s3_event : s3_record) (rest : list s3_record) (st : state W)
    (temp_dir : string) (w1 w2 w3 : W) :
  let bucket := s3_bucket_name s3_event in
  let key := s3_object_key s3_event in
  let zip_path := PosixPath.join temp_dir "rvm-configuration.zip" in
  let unpacked :=
    State w3 (trace st ++ [DownloadFile bucket key zip_path; ExtractAll zip_path temp_dir])
      (log st ++ [(INFO, LogReceivedEvent ev); (INFO, LogProcessing bucket key);
                  (INFO, LogDownloading bucket key zip_path);
                  (INFO, LogExtracting temp_dir)]) in
  Records ev = Some (s3_event :: rest) →
  tempfile_mkdtemp (world st) = (Ret temp_dir, w1) →
  s3_download_file bucket key zip_path w1 = (Ret tt, w2) →
  zipfile_extractall zip_path temp_dir w2 = (Ret tt, w3) →
  lambda_handler ev st =
    match deploy_all temp_dir unpacked with
    | (Ret r, st') =>
        (Ret (Response 200
                (CompletedBody "Deployment completed" (success r) (failed r) (deleted r))),
         st')
    | (Raise e, st') =>
        (Ret (Response 500 (ErrorBody (str_exn e))),
         State (world st') (trace st') (log st' ++ [(ERROR, LogError e)]))
    end.
Proof.
  intros bucket key zip_path unpacked Hrec Hdir Hget Hzip.
  destruct st as [w t l]. simpl in *.
  unfold lambda_handler, process_event, first_record, _download_and_extract_zip,
    report_error. rewrite Hrec. unfold_monad. simpl.
  rewrite Hdir. simpl. fold bucket key zip_path. rewrite Hget. simpl.
  rewrite Hzip. simpl. rewrite <- !app_assoc. simpl. fold unpacked.
  by destruct (deploy_all temp_dir unpacked) as [[r|e] st'].
Qed.

Lemma settled_assumes_nothing account names (w w' : W) t :
  settled account names w t w' → omap assumed_role t = [].
Proof. induction 1; done. Qed.

(** One account of the clean-up assumes one role, that of the account. *)
Lemma reconcile_account_assumes_once account_stacks acc account_id (st : state W) :
  ∃ t, trace (reconcile_account account_stacks acc account_id st).2 = trace st ++ t ∧
       omap assumed_role t = [workflow_role account_id].
Proof.
  destruct acc as [r existing].
  destruct (sts_assume_role (workflow_role account_id).1 (workflow_role account_id).2
              (world st)) as [[[]|e] w1] eqn:Hrole.
  - destruct (cfn_list_stacks account_id ["CREATE_COMPLETE"; "UPDATE_COMPLETE"] w1)
      as [[pages err] w2] eqn:Hlist.
    destruct (reconcile_account_run account_stacks r existing account_id st w1 pages err w2
                Hrole Hlist) as (r' & st' & t & E & Et & Hs).
    rewrite E. eexists. split; [exact Et|].
    by rewrite omap_app, (settled_assumes_nothing _ _ _ _ _ Hs).
  - destruct st as [w t l]. simpl in Hrole.
    unfold reconcile_account, _assume_role. unfold_monad. simpl.
    unfold workflow_role in Hrole. simpl in Hrole. rewrite Hrole. simpl.
    by eexists.
Qed.

Lemma delete_loop_assumes_once account_stacks accounts : ∀ acc (st : state W),
  ∃ t, trace (foldM (reconcile_account account_stacks) acc accounts st).2 = trace st ++ t ∧
       omap assumed_role t = workflow_role <$> accounts.
Proof.
  induction accounts as [|account_id accounts IH]; intros acc st; cbn [foldM].
  - exists []. by rewrite app_nil_r.
  - destruct (reconcile_account_assumes_once account_stacks acc account_id st)
      as (t1 & Et1 & Ht1).
    destruct (reconcile_account_never_raises account_stacks acc account_id st)
      as (acc1 & st1 & E1).
    unfold mbind, M_bind. rewrite E1 in *. simpl in Et1.
    destruct (IH acc1 st1) as (t2 & Et2 & Ht2).
    exists (t1 ++ t2). split; [by rewrite Et2, Et1, app_assoc|].
    by rewrite omap_app, Ht1, Ht2.
Qed.

(** X16. The clean-up assumes the role of each account of the manifest
    once, however many entries list the account and whatever fails: the
    roles it assumes are, in order, the role [RvmWorkflowRole] of the
    accounts of the first pass enumerated without repetition. *)
Theorem cleanup_assumes_each_role_once (d : desired) (st : state W) :
  ∃ t, trace (delete_phase d st).2 = trace st ++ t ∧
       omap assumed_role t = workflow_role <$> set_iter (all_accounts d) ∧
       NoDup (set_iter (all_accounts d)) ∧
       ∀ account, account ∈ set_iter (all_accounts d) ↔ account ∈ all_accounts d.
Proof.
  destruct (delete_loop_assumes_once (account_stacks d) (set_iter (all_accounts d))
              (d_results d, ∅) st) as (t & Et & Ht).
  exists t. split; [exact Et|]. split; [exact Ht|]. split.
  - rewrite set_iter_perm. apply NoDup_elements.
  - intros account. apply set_iter_elem_of.
Qed.

End Bundle.

(** ** The further properties on the simulated cloud *)

(** In [net_world] the entry for [net.yaml] creates the stack in its one
    account and reports the account as a success. *)
Lemma deploy_entry_reports_each_account_witness :
  (∃ r' st' t tried,
     deploy_entry "/b" ∅ empty_results (TemplateConfig (Some "net.yaml") (Some ["111"]))
       (State net_world [] []) = (Ret r', st') ∧
     trace st' = [] ++ t ∧
     deployed (_generate_stack_name "net.yaml") "Resources: {}" ∅ ["111"] net_world
       t tried (world st') ∧
     tried.*1 = ["111"] ∧
     success r' = success empty_results ++ reported "net.yaml" true tried ∧
     failed r' = failed empty_results ++ reported "net.yaml" false tried ∧
     deleted r' = deleted empty_results) ∧
  (deploy_entry "/b" ∅ empty_results (TemplateConfig (Some "net.yaml") (Some ["111"]))
     (State net_world [] [])).1 = Ret (Results ["net.yaml:111"] [] []) ∧
  trace (deploy_entry "/b" ∅ empty_results (TemplateConfig (Some "net.yaml") (Some ["111"]))
           (State net_world [] [])).2 =
    [AssumeRole "arn:aws:iam::111:role/RvmWorkflowRole" "rvm-deployment-111";
     CreateStack "111" "rvm-provisioned-net" "Resources: {}"].
Proof.
  split; [|split; by vm_compute].
  apply (deploy_entry_reports_each_account "/b" "net.yaml" "Resources: {}" ["111"] ∅
           empty_results (State net_world [] []) net_world);
    [discriminate|discriminate|reflexivity].
Defined.

(** The bucket of [uploaded_world] has no object [missing.zip]. *)
Lemma download_failure_answers_500_witness :
  lambda_handler (Event (Some [S3Record "cfg" "missing.zip"])) (State uploaded_world [] []) =
    (Ret (Response 500 (ErrorBody
            "An error occurred (404) when calling the HeadObject operation: Not Found")),
     State uploaded_world
       [DownloadFile "cfg" "missing.zip" "/tmp/tmpq1w2e3/rvm-configuration.zip"]
       [(INFO, LogReceivedEvent (Event (Some [S3Record "cfg" "missing.zip"])));
        (INFO, LogProcessing "cfg" "missing.zip");
        (INFO, LogDownloading "cfg" "missing.zip" "/tmp/tmpq1w2e3/rvm-configuration.zip");
        (ERROR, LogError (ClientError
           "An error occurred (404) when calling the HeadObject operation: Not Found"))]).
Proof.
  apply (download_failure_answers_500
           (Event (Some [S3Record "cfg" "missing.zip"])) (S3Record "cfg" "missing.zip") []
           (State uploaded_world [] []) "/tmp/tmpq1w2e3"
           (ClientError "An error occurred (404) when calling the HeadObject operation: Not Found")
           uploaded_world uploaded_world); reflexivity.
Defined.

(** In [denied_world] the role of account [111] is refused. *)
Lemma assume_role_failure_skips_account_witness :
  reconcile_account {["111" := {["rvm-provisioned-net-111"]}]} (empty_results, ∅) "111"
    (State denied_world [] []) =
    (Ret (empty_results, ∅),
     State denied_world
       [AssumeRole "arn:aws:iam::111:role/RvmWorkflowRole" "rvm-deployment-111"]
       [(ERROR, LogOrphanCheckFailed "111"
           (ClientError
              "An error occurred (AccessDenied) when calling the AssumeRole operation"))]).
Proof.
  apply (assume_role_failure_skips_account
           {["111" := {["rvm-provisioned-net-111"]}]} empty_results ∅
           "net.yaml" "Resources: {}" "rvm-provisioned-net" "111"
           (State denied_world [] [])
           (ClientError "An error occurred (AccessDenied) when calling the AssumeRole operation")
           denied_world); reflexivity.
Defined.

Lemma run_stays_within_manifest_accounts_witness :
  ∃ t, trace (deploy_all "/b" (State net_world [] [])).2 = [] ++ t ∧
       Forall (within_accounts
                 (manifest_accounts [TemplateConfig (Some "net.yaml") (Some ["111"])])) t.
Proof.
  apply (run_stays_within_manifest_accounts "/b"
           [TemplateConfig (Some "net.yaml") (Some ["111"])]
           (State net_world [] []) net_world); reflexivity.
Defined.

Lemma first_pass_bookkeeping_witness :
  ∃ d, (collect_desired "/b" [TemplateConfig (Some "net.yaml") (Some ["111"])]
          (State net_world [] [])).1 = Ret d ∧
       dom (account_stacks d) = all_accounts d ∧
       success (d_results d) = [] ∧ deleted (d_results d) = [].
Proof.
  destruct (collect_desired "/b" [TemplateConfig (Some "net.yaml") (Some ["111"])]
              (State net_world [] [])) as [[d|e] st'] eqn:E; [|by vm_compute in E].
  exists d. split; [done|].
  destruct (first_pass_bookkeeping "/b" [TemplateConfig (Some "net.yaml") (Some ["111"])]
              (State net_world [] []) st' d E) as (Hdom & _ & _ & _ & Hs & Hd & _).
  done.
Defined.

Lemma run_of_skipped_entries_is_empty_witness :
  deploy_all "/b" (State skipped_world [] []) =
    (Ret empty_results,
     State skipped_world []
       [(WARNING, LogMissingTemplateFile); (WARNING, LogNoAccounts "net.yaml");
        (WARNING, LogMissingTemplateFile); (INFO, LogDeploymentComplete 0 0 0)]).
Proof.
  apply (run_of_skipped_entries_is_empty "/b" skipped_manifest
           (State skipped_world [] []) skipped_world); reflexivity.
Defined.

(** On [locked_host] the template of the first scenario cannot be opened. *)
Lemma unreadable_template_aborts_run_witness :
  deploy_all "/b" (State tt [] []) =
    (Raise (OSError "[Errno 13] Permission denied: '/b/net.yaml'"), State tt [] []).
Proof.
  apply (proj2 (proj2 (unreadable_template_aborts_run "/b" "net.yaml" "111" []
           (Desired empty_results ∅ ∅ ∅) ∅ empty_results (State tt [] [])
           (OSError "[Errno 13] Permission denied: '/b/net.yaml'") tt
           ltac:(discriminate) eq_refl eq_refl)) [] (State tt [] [])).
  reflexivity.
Defined.

Lemma stack_name_of_template_path_witness :
  _generate_stack_name "stacks/prod/net.v2.yaml" = "rvm-provisioned-net.v2" ∧
  _generate_stack_name "net.v2.yaml" = "rvm-provisioned-net.v2".
Proof.
  apply (stack_name_of_template_path "stacks/prod" "net.v2" "yaml"); reflexivity.
Defined.

(** The simulated host has no unreadable file: a file is there or not. *)
Lemma run_survives_cloud_failures_witness :
  ∃ r st', deploy_all "/b" (State denied_world [] []) = (Ret r, st').
Proof.
  apply (run_survives_cloud_failures "/b" net_manifest (State denied_world [] [])
           denied_world); [|reflexivity].
  intros path w. simpl. unfold sim_file_read. by destruct (sim_files w !! path).
Defined.

(** The bundle of [uploaded_world] is fetched, unpacked and deployed. *)
Lemma handler_runs_on_extracted_bundle_witness :
  lambda_handler (Event (Some [S3Record "cfg" "rvm.zip"])) (State uploaded_world [] []) =
    match deploy_all "/tmp/tmpq1w2e3"
            (State uploaded_world
               [DownloadFile "cfg" "rvm.zip" "/tmp/tmpq1w2e3/rvm-configuration.zip";
                ExtractAll "/tmp/tmpq1w2e3/rvm-configuration.zip" "/tmp/tmpq1w2e3"]
               [(INFO, LogReceivedEvent (Event (Some [S3Record "cfg" "rvm.zip"])));
                (INFO, LogProcessing "cfg" "rvm.zip");
                (INFO, LogDownloading "cfg" "rvm.zip" "/tmp/tmpq1w2e3/rvm-configuration.zip");
                (INFO, LogExtracting "/tmp/tmpq1w2e3")]) with
    | (Ret r, st') =>
        (Ret (Response 200
                (CompletedBody "Deployment completed" (success r) (failed r) (deleted r))),
         st')
    | (Raise e, st') =>
        (Ret (Response 500 (ErrorBody (str_exn e))),
         State (world st') (trace st') (log st' ++ [(ERROR, LogError e)]))
    end.
Proof.
  apply (handler_runs_on_extracted_bundle
           (Event (Some [S3Record "cfg" "rvm.zip"])) (S3Record "cfg" "rvm.zip") []
           (State uploaded_world [] []) "/tmp/tmpq1w2e3"
           uploaded_world uploaded_world uploaded_world); reflexivity.
Defined.
